(** * NotesApp: the note listing, login and delete handlers of [app.js]

    A shallow embedding of the Express handlers of [src/app.js] together
    with the library calls they make (JavaScript's [parseInt] and
    [String.prototype.trim], the regular expression handed to MongoDB, the
    Mongoose queries [find], [countDocuments], [findOne] and
    [findOneAndDelete]), and the properties of the listing pipeline, of
    login and of delete that follow from them.

    Conventions of the model.
    - Text is [string]; a character is a code unit below 128 (ASCII).
    - A JavaScript number that holds an integer is a [Z]; [NaN] is kept
      apart.  Page numbers and counts stay far below 2^53, where the
      arithmetic of doubles on integers is exact.
    - A collection is the list of its documents in the order in which a
      scan of the collection meets them. *)

From Stdlib Require Import ZArith NArith List String Ascii Bool Lia.
From Stdlib Require Import Permutation Sorted.
From Stdlib Require Import DecimalString DecimalNat.
Import ListNotations.
Local Open Scope string_scope.
Local Open Scope Z_scope.

(** ** JavaScript primitives *)

Module JS.

(** A number as the handlers meet it: an integer or [NaN]. *)
Inductive number := NaN | Num (z : Z).

(** WhiteSpace and LineTerminator code units below 128:
    TAB, LF, VT, FF, CR and SPACE. *)
Definition is_white_space (c : ascii) : bool :=
  let n := nat_of_ascii c in
  ((9 <=? n)%nat && (n <=? 13)%nat) || (n =? 32)%nat.

Fixpoint trimStart (s : string) : string :=
  match s with
  | EmptyString => EmptyString
  | String c s' => if is_white_space c then trimStart s' else s
  end.

Fixpoint trimEnd (s : string) : string :=
  match s with
  | EmptyString => EmptyString
  | String c s' =>
      match trimEnd s' with
      | EmptyString => if is_white_space c then EmptyString
                       else String c EmptyString
      | t => String c t
      end
  end.

(** [String.prototype.trim]. *)
Definition trim (s : string) : string := trimEnd (trimStart s).

(** Truthiness of a string: every string but the empty one. *)
Definition truthy (s : string) : bool :=
  match s with EmptyString => false | _ => true end.

(** Value of a digit of [parseInt], in any radix up to 36. *)
Definition digit_value (c : ascii) : option Z :=
  let n := Z.of_nat (nat_of_ascii c) in
  if (48 <=? n) && (n <=? 57) then Some (n - 48)
  else if (97 <=? n) && (n <=? 122) then Some (n - 87)
  else if (65 <=? n) && (n <=? 90) then Some (n - 55)
  else None.

(** The longest prefix of [s] made of digits of the radix, read as a
    number; [acc] is what has been read so far ([None]: no digit yet). *)
Fixpoint digits (radix : Z) (acc : option Z) (s : string) : option Z :=
  match s with
  | EmptyString => acc
  | String c s' =>
      match digit_value c with
      | Some d =>
          if d <? radix
          then digits radix
                 (Some (match acc with Some a => a * radix + d | None => d end)) s'
          else acc
      | None => acc
      end
  end.

(** [parseInt (string)] with no radix: leading white space is skipped, a
    sign is read, a [0x] or [0X] prefix selects radix 16, and the longest
    prefix of digits is the result; no digit gives [NaN].  The result is
    the number written, which is what [parseInt] gives below 2^53; from
    there on a JavaScript number rounds it. *)
Definition parseInt_string (s : string) : number :=
  let s1 := trimStart s in
  let '(sign, s2) :=
    match s1 with
    | String "-" r => (-1, r)
    | String "+" r => (1, r)
    | _ => (1, s1)
    end in
  let '(radix, s3) :=
    match s2 with
    | String "0" (String "x" r) => (16, r)
    | String "0" (String "X" r) => (16, r)
    | _ => (10, s2)
    end in
  match digits radix None s3 with
  | None => NaN
  | Some m => Num (sign * m)
  end.

(** [parseInt (v)] for a query parameter [v]: an absent parameter is
    [undefined], whose text has no digit. *)
Definition parseInt (v : option string) : number :=
  match v with
  | None => NaN
  | Some s => parseInt_string s
  end.

(** [n || d] for a number [n]: [NaN] and zero are falsy. *)
Definition number_or (n : number) (d : Z) : Z :=
  match n with
  | NaN => d
  | Num z => if z =? 0 then d else z
  end.

(** [s || d] for an optional string: [undefined] and [''] are falsy. *)
Definition string_or (v : option string) (d : string) : string :=
  match v with
  | Some s => if truthy s then s else d
  | None => d
  end.

(** ASCII lower case, the folding of a case-insensitive comparison. *)
Definition to_lower (c : ascii) : ascii :=
  let n := nat_of_ascii c in
  if ((65 <=? n)%nat && (n <=? 90)%nat)%bool then ascii_of_nat (n + 32) else c.

Fixpoint toLowerCase (s : string) : string :=
  match s with
  | EmptyString => EmptyString
  | String c s' => String (to_lower c) (toLowerCase s')
  end.

End JS.

(** ** Exceptions *)

(** What a call of the handlers can throw. *)
Inductive exn :=
| SyntaxError (msg : string)
| MongoServerError (msg : string)
| CastError
| TypeError
| Error (msg : string)
| JsonWebTokenError.

(** A computation that returns or throws. *)
Inductive result (A : Type) :=
| Ok (a : A)
| Throw (e : exn).
Arguments Ok {A} a.
Arguments Throw {A} e.

Definition bind {A B : Type} (r : result A) (k : A -> result B) : result B :=
  match r with
  | Ok a => k a
  | Throw e => Throw e
  end.

(** [try { body } catch (err) { handler }]. *)
Definition try_catch {A : Type} (body : result A) (handler : exn -> A) : A :=
  match body with
  | Ok a => a
  | Throw e => handler e
  end.

Notation "x <- c ;; k" := (bind c (fun x => k))
  (at level 61, c at next level, right associativity).

(** ** Regular expressions

    [new RegExp (search, 'i')] reads the search text as a pattern, and
    MongoDB tests the title and the content of a note against it.  The model
    covers the patterns made of plain characters, the dot and the
    quantifiers [*], [+] and [?] (greedy or lazy); a pattern that uses
    another syntax character is outside the model ([Unsupported]). *)

Module RegExp.

Inductive atom := Lit (c : ascii) | Dot.
Inductive quantifier := One | Star | Plus | Opt.
Definition term : Type := atom * quantifier.
Definition pattern : Type := list term.

Inductive compiled :=
| Pattern (p : pattern)
| Invalid (msg : string)
| Unsupported.

(** Where the parser stands: nothing to repeat yet, after an atom, after a
    quantifier, after the [?] that makes a quantifier lazy. *)
Inductive state := Start | AfterAtom | AfterQuantifier | AfterLazy.

Definition quantifier_of (c : ascii) : option quantifier :=
  if Ascii.eqb c "*" then Some Star
  else if Ascii.eqb c "+" then Some Plus
  else if Ascii.eqb c "?" then Some Opt
  else None.

(** The syntax characters that the model does not read. *)
Definition other_syntax_char (c : ascii) : bool :=
  existsb (Ascii.eqb c)
    ["\"; "^"; "$"; "|"; "("; ")"; "["; "]"; "{"; "}"]%char.

(** Is [c] a character that stands for itself in a pattern? *)
Definition pattern_char (c : ascii) : bool :=
  match quantifier_of c with
  | Some _ => false
  | None => negb (other_syntax_char c) && negb (Ascii.eqb c ".")
  end.

(** Sets the quantifier of the last term read ([acc] is in reverse). *)
Definition quantify (q : quantifier) (acc : pattern) : pattern :=
  match acc with
  | (a, _) :: rest => (a, q) :: rest
  | [] => []
  end.

Fixpoint parse (st : state) (acc : pattern) (s : string) : compiled :=
  match s with
  | EmptyString => Pattern (rev acc)
  | String c s' =>
      match quantifier_of c with
      | Some q =>
          match st with
          | Start => Invalid "Nothing to repeat"
          | AfterAtom => parse AfterQuantifier (quantify q acc) s'
          | AfterQuantifier =>
              match q with
              | Opt => parse AfterLazy acc s'
              | _ => Invalid "Nothing to repeat"
              end
          | AfterLazy => Invalid "Nothing to repeat"
          end
      | None =>
          if other_syntax_char c then Unsupported
          else parse AfterAtom
                 ((if Ascii.eqb c "." then Dot else Lit c, One) :: acc) s'
      end
  end.

(** [new RegExp (source, 'i')]. *)
Definition compile (source : string) : compiled := parse Start [] source.

(** One character against one atom, ignoring case; the dot matches every
    character but the line feed. *)
Definition atom_matches (a : atom) (c : ascii) : bool :=
  match a with
  | Lit l => Ascii.eqb (JS.to_lower l) (JS.to_lower c)
  | Dot => negb (Ascii.eqb c "010")
  end.

(** Does [p] match a prefix of [s]? *)
Fixpoint matches_here (p : pattern) (s : string) : bool :=
  match p with
  | [] => true
  | (a, q) :: p' =>
      let repeat :=
        fix repeat (s : string) : bool :=
          matches_here p' s
          || match s with
             | String c s' => atom_matches a c && repeat s'
             | EmptyString => false
             end in
      match q with
      | One =>
          match s with
          | String c s' => atom_matches a c && matches_here p' s'
          | EmptyString => false
          end
      | Opt =>
          matches_here p' s
          || match s with
             | String c s' => atom_matches a c && matches_here p' s'
             | EmptyString => false
             end
      | Star => repeat s
      | Plus =>
          match s with
          | String c s' => atom_matches a c && repeat s'
          | EmptyString => false
          end
      end
  end.

(** Does [p] match somewhere in [s]?  (The pattern is not anchored.) *)
Fixpoint test (p : pattern) (s : string) : bool :=
  matches_here p s
  || match s with
     | String _ s' => test p s'
     | EmptyString => false
     end.

End RegExp.

(** ** Documents *)

(** An ObjectId is a 96-bit value. *)
Definition ObjectId : Type := N.

Module User.
(** [models/user.js]. *)
Record t := mk {
  _id : ObjectId;
  username : string;
  email : string;
  password : string;      (* the bcrypt hash *)
  age : Z;
  posts : list ObjectId
}.
End User.

Module Note.
(** Modelled from the spec: [models/notes.js] is not among the sources;
    the fields are the ones [app.js] writes and queries ([title],
    [content], [media], [user]) and sorts by ([createdAt], the creation
    time in milliseconds). *)
Record t := mk {
  _id : ObjectId;
  title : string;
  content : string;
  media : option string;
  user : ObjectId;
  createdAt : Z
}.
End Note.

(** The object signed into a token at login, and what the verifier returns:
    the same object with the time of issue. *)
Record claims := { email : string; userid : ObjectId }.
Record decoded := { payload : claims; iat : Z }.

(** ** Mongoose queries on the notes *)

Module Mongo.

(** [{ createdAt: 1 }] and [{ createdAt: -1 }]. *)
Inductive sortOptions := Ascending | Descending.

(** [{ user: u, $or: [{ title: regex }, { content: regex }] }]; the [$or]
    is only there when a search was given. *)
Record query := { user : ObjectId; or_title_content : option RegExp.pattern }.

Definition matches (q : query) (n : Note.t) : bool :=
  N.eqb (Note.user n) (user q)
  && match or_title_content q with
     | None => true
     | Some regex =>
         RegExp.test regex (Note.title n) || RegExp.test regex (Note.content n)
     end.

(** Does [a] come no later than [b] in the order asked for? *)
Definition before (o : sortOptions) (a b : Note.t) : bool :=
  match o with
  | Ascending => Note.createdAt a <=? Note.createdAt b
  | Descending => Note.createdAt b <=? Note.createdAt a
  end.

Fixpoint insert (o : sortOptions) (x : Note.t) (l : list Note.t) : list Note.t :=
  match l with
  | [] => [x]
  | y :: l' => if before o x y then x :: l else y :: insert o x l'
  end.

(** Sorting on [createdAt] alone.  MongoDB fixes no order between
    documents with equal keys; the model keeps them in the order of the
    scan, which the database may change from one call to the next. *)
Fixpoint sort (o : sortOptions) (l : list Note.t) : list Note.t :=
  match l with
  | [] => []
  | x :: l' => insert o x (sort o l')
  end.

(** [Note.countDocuments (query)]. *)
Definition countDocuments (q : query) (coll : list Note.t) : Z :=
  Z.of_nat (List.length (List.filter (matches q) coll)).

(** [Note.find (query).sort (o).skip (s).limit (l)]; the server refuses a
    negative skip. *)
Definition find_sort_skip_limit
    (q : query) (o : sortOptions) (s l : Z) (coll : list Note.t)
  : result (list Note.t) :=
  if s <? 0 then Throw (MongoServerError "Skip value must be non-negative")
  else Ok (firstn (Z.to_nat l) (skipn (Z.to_nat s) (sort o (List.filter (matches q) coll)))).

(** [Note.findOneAndDelete ({ _id: id, user: u })]: the first document
    of the scan with this id and this owner is removed and returned. *)
Fixpoint findOneAndDelete (id u : ObjectId) (coll : list Note.t)
  : option Note.t * list Note.t :=
  match coll with
  | [] => (None, [])
  | n :: rest =>
      if N.eqb (Note._id n) id && N.eqb (Note.user n) u then (Some n, rest)
      else let '(d, rest') := findOneAndDelete id u rest in (d, n :: rest')
  end.

(** [User.findOne ({ email })]. *)
Definition findOne_email (e : string) (users : list User.t) : option User.t :=
  List.find (fun u => String.eqb (User.email u) e) users.

End Mongo.

(** ** [GET /]: the listing *)

Module Query.
(** [req.query]: each parameter absent or given once, as text.  A
    search parameter of another shape is in [index_handler]. *)
Record t := mk { page : option string; sort : option string; search : option string }.
End Query.

Module Index.

(** The locals handed to the [index] view. *)
Record locals := mk {
  notes : list Note.t;
  currentPage : Z;
  totalPages : Z;
  totalNotes : Z;
  sort : string;
  search : string
}.

Inductive response :=
| Render (v : locals)
| Status500 (body : string).

End Index.

(** [Math.ceil (a / b)] for a positive [b]. *)
Definition Math_ceil_div (a b : Z) : Z := - ((- a) / b).

Definition limit : Z := 5.

(** [parseInt (req.query.page) || 1]. *)
Definition page_of (q : Query.t) : Z :=
  JS.number_or (JS.parseInt (Query.page q)) 1.

(** [req.query.sort || 'newest']. *)
Definition sort_of (q : Query.t) : string :=
  JS.string_or (Query.sort q) "newest".

(** [req.query.search ? req.query.search.trim () : '']. *)
Definition search_of (q : Query.t) : string :=
  match Query.search q with
  | Some s => if JS.truthy s then JS.trim s else ""
  | None => ""
  end.

(** [sortOptions]: descending unless [sort === 'oldest']. *)
Definition sortOptions_of (sort : string) : Mongo.sortOptions :=
  if String.eqb sort "oldest" then Mongo.Ascending else Mongo.Descending.

(** The query of the listing.  [None]: the search is a pattern outside the
    model of regular expressions; [index_handler] answers for these too. *)
Definition query_of (u : decoded) (search : string) : option (result Mongo.query) :=
  if JS.truthy search then
    match RegExp.compile search with
    | RegExp.Pattern regex =>
        Some (Ok {| Mongo.user := userid (payload u);
                    Mongo.or_title_content := Some regex |})
    | RegExp.Invalid msg => Some (Throw (SyntaxError msg))
    | RegExp.Unsupported => None
    end
  else Some (Ok {| Mongo.user := userid (payload u);
                   Mongo.or_title_content := None |}).

(** The page shown: the last one when the page asked for lies beyond it. *)
Definition clamp (totalPages page : Z) : Z :=
  if (0 <? totalPages) && (totalPages <? page) then totalPages else page.

(** The handler of [GET /], for the notes [coll], the identity
    [res.locals.user] left by the token middleware and the query of the
    request.  [None]: the search is outside the model of regular
    expressions. *)
Definition get_index (coll : list Note.t) (locals_user : option decoded) (q : Query.t)
  : option Index.response :=
  let page := page_of q in
  let sort := sort_of q in
  let search := search_of q in
  let sortOptions := sortOptions_of sort in
  match locals_user with
  | None =>
      Some (Index.Render
              {| Index.notes := []; Index.currentPage := 1; Index.totalPages := 0;
                 Index.totalNotes := 0; Index.sort := sort; Index.search := search |})
  | Some u =>
      match query_of u search with
      | None => None
      | Some built =>
          Some (try_catch
                  (query <- built ;;
                   let totalNotes := Mongo.countDocuments query coll in
                   let totalPages := Math_ceil_div totalNotes limit in
                   let page := clamp totalPages page in
                   notes <- Mongo.find_sort_skip_limit query sortOptions
                              ((page - 1) * limit) limit coll ;;
                   Ok (Index.Render
                         {| Index.notes := notes; Index.currentPage := page;
                            Index.totalPages := totalPages;
                            Index.totalNotes := totalNotes;
                            Index.sort := sort; Index.search := search |}))
                  (fun _ => Index.Status500 "Error fetching notes"))
      end
  end.

(** ** The session: tokens and passwords *)

(** The two libraries behind the session, [jsonwebtoken] and [bcrypt], by
    the calls the handlers make.  A [Token] is the text of a cookie that is
    not empty; [jwt_sign] also takes the time of issue. *)
Record Libraries := {
  Token : Type;
  jwt_sign : claims -> string -> Z -> Token;
  jwt_verify : Token -> string -> result decoded;
  bcrypt_compare : string -> string -> bool
}.

(** [process.env], as far as the session reads it. *)
Record env := { JWT_SECRET : option string }.

(** [process.env.JWT_SECRET || 'jwt_secret']. *)
Definition secret_of (e : env) : string := JS.string_or (JWT_SECRET e) "jwt_secret".

(** [req.flash (type, message)] followed by [res.redirect (location)]. *)
Record redirect := {
  flash_type : string;
  flash_message : string;
  location : string
}.

(** What [isLoggedIn] does with a request. *)
Inductive guard := Next | Rejected (r : redirect).

(** The [:id] of a path: the text of an ObjectId, or other text, which
    Mongoose refuses to cast. *)
Inductive id_param := IdText (id : ObjectId) | OtherText (s : string).

Definition cast_ObjectId (p : id_param) : result ObjectId :=
  match p with
  | IdText id => Ok id
  | OtherText _ => Throw CastError
  end.

Section Session.

Context (L : Libraries).

(** The cookie [token] of a request: [None] when it is absent or empty,
    the two cases where [if (token)] fails. *)
Definition cookie : Type := option (Token L).

(** The middleware that leaves the identity of the request in
    [res.locals.user]: the decoded token, or [null]. *)
Definition token_middleware (e : env) (c : cookie) : option decoded :=
  match c with
  | Some token =>
      try_catch (decoded <- jwt_verify L token (secret_of e) ;; Ok (Some decoded))
                (fun _ => None)
  | None => None
  end.

Definition isLoggedIn (e : env) (c : cookie) : guard :=
  match c with
  | Some token =>
      try_catch (_ <- jwt_verify L token (secret_of e) ;; Ok Next)
                (fun _ => Rejected {| flash_type := "error";
                                      flash_message := "Invalid token.";
                                      location := "/login" |})
  | None => Rejected {| flash_type := "error";
                        flash_message := "You must be logged in.";
                        location := "/login" |}
  end.

(** [bcrypt.compare (data, hash)]; it rejects when [data] is missing. *)
Definition compare (data : option string) (hash : string) : result bool :=
  match data with
  | Some d => Ok (bcrypt_compare L d hash)
  | None => Throw (Error "data and hash arguments required")
  end.

(** [POST /login] at time [now], for the body fields [email] and
    [password]: the redirect, and the cookie [token] when one is set. *)
Definition post_login (e : env) (now : Z) (users : list User.t)
    (email : string) (password : option string) : redirect * cookie :=
  try_catch
    (match Mongo.findOne_email email users with
     | None =>
         Ok ({| flash_type := "error";
                flash_message := "Invalid email or password";
                location := "/login" |}, None)
     | Some user =>
         isMatch <- compare password (User.password user) ;;
         if negb isMatch then
           Ok ({| flash_type := "error";
                  flash_message := "Invalid email or password";
                  location := "/login" |}, None)
         else
           let token :=
             jwt_sign L {| email := User.email user; userid := User._id user |}
                      (secret_of e) now in
           Ok ({| flash_type := "success";
                  flash_message := "Logged in successfully";
                  location := "/" |}, Some token)
     end)
    (fun _ => ({| flash_type := "error";
                  flash_message := "Error logging in";
                  location := "/login" |}, None)).

(** [res.locals.user.userid]; a [TypeError] when there is no identity. *)
Definition locals_userid (locals_user : option decoded) : result ObjectId :=
  match locals_user with
  | Some u => Ok (userid (payload u))
  | None => Throw TypeError
  end.

(** [POST /notes] at time [now]; [fresh] is the id the store gives to the
    new note, [file] the path of the uploaded media.  The redirect and the
    notes after the request. *)
Definition post_notes (e : env) (c : cookie) (now : Z) (fresh : ObjectId)
    (title content file : option string) (coll : list Note.t)
  : redirect * list Note.t :=
  match isLoggedIn e c with
  | Rejected r => (r, coll)
  | Next =>
      try_catch
        (if negb (JS.truthy (JS.string_or title ""))
            || negb (JS.truthy (JS.string_or content "")) then
           Ok ({| flash_type := "error";
                  flash_message := "Title and content are required";
                  location := "/" |}, coll)
         else
           owner <- locals_userid (token_middleware e c) ;;
           Ok ({| flash_type := "success";
                  flash_message := "Note created successfully";
                  location := "/" |},
               (coll ++ [Note.mk fresh (JS.string_or title "")
                                 (JS.string_or content "") file owner now])%list))
        (fun _ => ({| flash_type := "error";
                      flash_message := "Error creating note";
                      location := "/" |}, coll))
  end.

(** [POST /delete/:id]: the redirect and the notes after the request. *)
Definition post_delete (e : env) (c : cookie) (id : id_param) (coll : list Note.t)
  : redirect * list Note.t :=
  match isLoggedIn e c with
  | Rejected r => (r, coll)
  | Next =>
      try_catch
        (owner <- locals_userid (token_middleware e c) ;;
         oid <- cast_ObjectId id ;;
         let '(deletedNote, rest) := Mongo.findOneAndDelete oid owner coll in
         match deletedNote with
         | None =>
             Ok ({| flash_type := "error";
                    flash_message := "Note not found";
                    location := "/" |}, rest)
         | Some _ =>
             Ok ({| flash_type := "success";
                    flash_message := "Note deleted";
                    location := "/" |}, rest)
         end)
        (fun _ => ({| flash_type := "error";
                      flash_message := "Error deleting note";
                      location := "/" |}, coll))
  end.

(** [GET /] for a request with the cookie [c]: the token middleware, then
    the handler. *)
Definition get_index_request (e : env) (c : cookie) (coll : list Note.t) (q : Query.t)
  : option Index.response :=
  get_index coll (token_middleware e c) q.

End Session.

(** ** The words of the specification *)

(** [t] occurs in [s] as a run of consecutive characters. *)
Definition is_substring (t s : string) : Prop :=
  exists pre post, s = pre ++ t ++ post.

(** Case-insensitive containment, as the specification words the search:
    [t] occurs in [s] once the case of both is folded. *)
Definition contains_ignoring_case (t s : string) : Prop :=
  is_substring (JS.toLowerCase t) (JS.toLowerCase s).

(** The same, decided: is [t], case folded, a prefix of [s] / inside [s]? *)
Fixpoint prefix_ignoring_case (t s : string) : bool :=
  match t, s with
  | EmptyString, _ => true
  | String a t', String b s' =>
      Ascii.eqb (JS.to_lower a) (JS.to_lower b) && prefix_ignoring_case t' s'
  | String _ _, EmptyString => false
  end.

Fixpoint includes_ignoring_case (t s : string) : bool :=
  prefix_ignoring_case t s
  || match s with
     | String _ s' => includes_ignoring_case t s'
     | EmptyString => false
     end.

(** The notes of owner [u] that a search for [term] is to find, following
    the specification: all of them for an empty term, otherwise those whose
    title or content contains the term. *)
Definition searched (u : ObjectId) (term : string) (n : Note.t) : bool :=
  N.eqb (Note.user n) u
  && (negb (JS.truthy term)
      || includes_ignoring_case term (Note.title n)
      || includes_ignoring_case term (Note.content n)).

(** A search term without any syntax character of regular expressions. *)
Fixpoint plain (term : string) : bool :=
  match term with
  | EmptyString => true
  | String c t => RegExp.pattern_char c && plain t
  end.

(** The notes of owner [u]. *)
Definition owned_by (u : ObjectId) (n : Note.t) : bool := N.eqb (Note.user n) u.

(** The order of a sorted listing, as a relation. *)
Definition ordered (o : Mongo.sortOptions) (a b : Note.t) : Prop :=
  Mongo.before o a b = true.

(** The slice of page [p] out of [l]. *)
Definition page_slice (p : Z) (l : list Note.t) : list Note.t :=
  firstn 5 (skipn (Z.to_nat ((p - 1) * 5)) l).

(** The outcome of a failed login. *)
Definition InvalidCredentials (L : Libraries) : redirect * cookie L :=
  ({| flash_type := "error";
      flash_message := "Invalid email or password";
      location := "/login" |}, None).

(** An instance of the libraries to run the handlers on: a token is the
    signed object beside its secret and time of issue, and the hash of a
    password is the password after a [$]. *)
Definition plain_libraries : Libraries :=
  {| Token := claims * string * Z;
     jwt_sign := fun p k t => (p, k, t);
     jwt_verify := fun tok k =>
       let '(p, k', t) := tok in
       if String.eqb k' k then Ok {| payload := p; iat := t |}
       else Throw JsonWebTokenError;
     bcrypt_compare := fun d h => String.eqb ("$" ++ d) h |}.

(** The contract of [jsonwebtoken]: verifying a token with the secret that
    signed it gives back the signed object and the time of issue. *)
Definition verify_sign (L : Libraries) : Prop :=
  forall p k t, jwt_verify L (jwt_sign L p k t) k = Ok {| payload := p; iat := t |}.

(** Sample data. *)
Definition alice : decoded :=
  {| payload := {| email := "alice@example.org"; userid := 1%N |}; iat := 0 |}.
Definition bob : decoded :=
  {| payload := {| email := "bob@example.org"; userid := 2%N |}; iat := 0 |}.

Definition note_at (id : N) (owner : N) (title : string) (t : Z) : Note.t :=
  Note.mk id title "text" None owner t.

(** Twelve notes of one owner, and one of another. *)
Definition twelve_notes : list Note.t :=
  map (fun i => note_at (N.of_nat i) 1 "note" (Z.of_nat i)) (seq 1 12)
  ++ [note_at 99 2 "other" 50].

(** ** Definitions for the statements *)

(** The locals of a listing that renders, from the query [qy] it ran. *)
Definition listing (coll : list Note.t) (qy : Mongo.query) (q : Query.t) : Index.locals :=
  let total := Mongo.countDocuments qy coll in
  let pages := Math_ceil_div total limit in
  let p := clamp pages (page_of q) in
  {| Index.notes :=
       page_slice p (Mongo.sort (sortOptions_of (sort_of q))
                                (filter (Mongo.matches qy) coll));
     Index.currentPage := p;
     Index.totalPages := pages;
     Index.totalNotes := total;
     Index.sort := sort_of q;
     Index.search := search_of q |}.

(** The response [r] with [s] as the sort that it hands back to the view. *)
Definition echoing_sort (s : string) (r : option Index.response) : option Index.response :=
  match r with
  | Some (Index.Render v) =>
      Some (Index.Render
              {| Index.notes := Index.notes v; Index.currentPage := Index.currentPage v;
                 Index.totalPages := Index.totalPages v;
                 Index.totalNotes := Index.totalNotes v;
                 Index.sort := s; Index.search := Index.search v |})
  | other => other
  end.


(** The outcome of a delete that finds no note. *)
Definition NotFound : redirect :=
  {| flash_type := "error"; flash_message := "Note not found"; location := "/" |}.

(** Sample users, with the hashes of [plain_libraries]. *)
Definition sample_users : list User.t :=
  [User.mk 1%N "alice" "alice@example.org" "$wonderland" 30 [];
   User.mk 2%N "bob" "bob@example.org" "$builder" 41 []].

(** The cookie that [plain_libraries] gives alice under the default secret. *)
Definition alice_cookie : cookie plain_libraries :=
  Some (payload alice, "jwt_secret", 0).

(** The pattern that reads every character of [t] as itself. *)
Fixpoint literal (t : string) : RegExp.pattern :=
  match t with
  | EmptyString => []
  | String c t' => (RegExp.Lit c, RegExp.One) :: literal t'
  end.

(** The example of the specification: a note titled "Grocery List". *)
Definition grocery : Note.t := note_at 7 1 "Grocery List" 10.

(** Three notes of one owner, and a store that another owner shares. *)
Definition three_notes : list Note.t :=
  [note_at 1 1 "a" 10; note_at 2 1 "b" 20; note_at 3 1 "c" 30].

Definition shared_store : list Note.t := three_notes ++ [note_at 99 2 "other" 50].

(** ** [GET /notes/:id], [GET /logout] and [POST /register] *)

(** [Note.findOne ({ _id: id, user: u })]. *)
Definition Note_findOne (id u : ObjectId) (coll : list Note.t) : option Note.t :=
  List.find (fun n => N.eqb (Note._id n) id && N.eqb (Note.user n) u) coll.

(** What [GET /notes/:id] answers: the [show] view of a note, or a
    redirect. *)
Inductive show_response :=
| RenderShow (note : Note.t)
| RedirectShow (r : redirect).

(** The handler of [GET /notes/:id], for the identity [res.locals.user]. *)
Definition get_note (locals_user : option decoded) (id : id_param) (coll : list Note.t)
  : show_response :=
  try_catch
    (match locals_user with
     | None =>
         Ok (RedirectShow {| flash_type := "error";
                             flash_message := "You must be logged in.";
                             location := "/login" |})
     | Some u =>
         oid <- cast_ObjectId id ;;
         match Note_findOne oid (userid (payload u)) coll with
         | None =>
             Ok (RedirectShow {| flash_type := "error";
                                 flash_message := "Note not found or unauthorized";
                                 location := "/" |})
         | Some note => Ok (RenderShow note)
         end
     end)
    (fun _ => RedirectShow {| flash_type := "error";
                              flash_message := "Error fetching note";
                              location := "/" |}).

(** [GET /logout]: the cookie [token] is cleared. *)
Definition get_logout (L : Libraries) : redirect * cookie L :=
  ({| flash_type := "success";
      flash_message := "Logged out successfully";
      location := "/login" |}, None).

(** What registration needs beyond [Libraries]: [bcrypt.hash (data,
    rounds)], which also depends on the salt it draws, and the texts of the
    two errors of the store, the [ValidationError] for a list of paths and
    the duplicate key error for an index and a value. *)
Record Registration := {
  bcrypt_hash : string -> Z -> string -> string;
  validation_message : list string -> string;
  duplicate_key_message : string -> string -> string
}.

(** [err.message].  The exceptions that carry no text in the model do not
    arise in [POST /register]. *)
Definition message (e : exn) : string :=
  match e with
  | SyntaxError m | MongoServerError m | Error m => m
  | CastError | TypeError | JsonWebTokenError => ""
  end.

(** [bcrypt.hash (data, rounds)] with the salt drawn; it rejects when [data]
    is missing. *)
Definition hash (R : Registration) (data : option string) (rounds : Z) (salt : string)
  : result string :=
  match data with
  | Some d => Ok (bcrypt_hash R d rounds salt)
  | None => Throw (Error "data and salt arguments required")
  end.

(** The paths of [models/user.js] that fail [required: true]: an absent
    value and an empty string are refused.  [age] is the number the field
    casts to, [None] when there is none.  The paths are listed in the order
    of the schema; the order in which mongoose names them only shows in the
    text that [validation_message] stands for. *)
Definition invalid_paths
    (username : option string) (email password : string) (age : option Z) : list string :=
  ((if JS.truthy (JS.string_or username "") then [] else ["username"])
   ++ (if JS.truthy email then [] else ["email"])
   ++ (if JS.truthy password then [] else ["password"])
   ++ (match age with Some _ => [] | None => ["age"] end))%list.

(** [User.create ({ username, email, password, age })]: validation, then
    the insert, which the two [unique: true] indexes of [models/user.js]
    can refuse.  [fresh] is the id of the new user. *)
Definition User_create (R : Registration) (fresh : ObjectId) (users : list User.t)
    (username : option string) (email password : string) (age : option Z)
  : result User.t :=
  match invalid_paths username email password age, age with
  | [], Some a =>
      let name := JS.string_or username "" in
      if existsb (fun u => String.eqb (User.username u) name) users then
        Throw (MongoServerError (duplicate_key_message R "username" name))
      else if existsb (fun u => String.eqb (User.email u) email) users then
        Throw (MongoServerError (duplicate_key_message R "email" email))
      else Ok (User.mk fresh name email password a [])
  | paths, _ => Throw (Error (validation_message R paths))
  end.

(** [POST /register] at time [now]: the redirect, the cookie [token] when
    one is set, and the users after the request. *)
Definition post_register (L : Libraries) (R : Registration) (e : env) (now : Z)
    (fresh : ObjectId) (salt : string) (users : list User.t)
    (username : option string) (email : string) (password : option string)
    (age : option Z)
  : redirect * cookie L * list User.t :=
  try_catch
    (match Mongo.findOne_email email users with
     | Some _ =>
         Ok ({| flash_type := "error";
                flash_message := "User already exists";
                location := "/register" |}, None, users)
     | None =>
         hashedPassword <- hash R password 10 salt ;;
         user <- User_create R fresh users username email hashedPassword age ;;
         let token :=
           jwt_sign L {| email := User.email user; userid := User._id user |}
                    (secret_of e) now in
         Ok ({| flash_type := "success";
                flash_message := "Registered successfully";
                location := "/" |}, Some token, (users ++ [user])%list)
     end)
    (fun err => ({| flash_type := "error";
                    flash_message := "Error registering user: " ++ message err;
                    location := "/register" |}, None, users)).

(** ** More definitions for the statements *)

(** The environment without [JWT_SECRET]. *)
Definition default_env : env := {| JWT_SECRET := None |}.

(** The decimal text of a number, as a link to a page gives it. *)
Definition page_text (n : nat) : string := NilZero.string_of_uint (Nat.to_uint n).

(** The notes that a response shows; none when it does not render. *)
Definition shown (r : option Index.response) : list Note.t :=
  match r with
  | Some (Index.Render v) => Index.notes v
  | _ => []
  end.

(** The contract of [bcrypt]: a password matches every hash of itself. *)
Definition hash_compare (L : Libraries) (R : Registration) : Prop :=
  forall d rounds salt, bcrypt_compare L d (bcrypt_hash R d rounds salt) = true.

(** The registration that goes with [plain_libraries]. *)
Definition plain_registration : Registration :=
  {| bcrypt_hash := fun d _ _ => "$" ++ d;
     validation_message := fun paths => "User validation failed: " ++ String.concat ", " paths;
     duplicate_key_message := fun index value =>
       "E11000 duplicate key error index: " ++ index ++ " dup key: " ++ value |}.

(** The users of a store have distinct ids, distinct non-empty emails and
    distinct non-empty names: what [models/user.js] asks for. *)
Definition users_ok (users : list User.t) : Prop :=
  NoDup (map User._id users)
  /\ NoDup (map User.email users)
  /\ NoDup (map User.username users)
  /\ Forall (fun u => User.email u <> "" /\ User.username u <> "") users.

(** ** [GET /] for every search

    The handler again, now with the two things that [get_index] leaves
    out.  The search parameter is taken as Express hands it over: absent, a
    text, or an array or object, which a parameter given more than once or
    with brackets becomes.  And [new RegExp (search, 'i')] with the test
    that the store runs is a parameter: a function that throws or gives the
    test of a text, so that every pattern has an answer.  The parameters
    [page] and [sort] stay texts: [parseInt] reads a value of another shape
    through its text and [sort] is only compared with ['oldest']. *)

(** What a compiled pattern does with a text. *)
Definition matcher : Type := string -> bool.

(** [req.query.search]. *)
Inductive search_param :=
| SearchAbsent
| SearchText (s : string)
| SearchNotText.

(** [req.query.search ? req.query.search.trim () : '']: an array and an
    object are truthy and have no [trim]. *)
Definition search_text (search : search_param) : result string :=
  match search with
  | SearchAbsent => Ok ""
  | SearchText s => Ok (if JS.truthy s then JS.trim s else "")
  | SearchNotText => Throw TypeError
  end.

(** The pattern of the query: none for an empty search. *)
Definition search_regex (new_RegExp : string -> result matcher) (search : string)
  : result (option matcher) :=
  if JS.truthy search then regex <- new_RegExp search ;; Ok (Some regex)
  else Ok None.

(** [{ user: u, $or: [{ title: regex }, { content: regex }] }] on a note. *)
Definition matches_regex (u : ObjectId) (regex : option matcher) (n : Note.t) : bool :=
  N.eqb (Note.user n) u
  && match regex with
     | None => true
     | Some test => test (Note.title n) || test (Note.content n)
     end.

(** [Note.find (query).sort (o).skip (s).limit (l)] for the notes that
    [keep] keeps; the server refuses a negative skip. *)
Definition find_where (keep : Note.t -> bool) (o : Mongo.sortOptions) (s l : Z)
    (coll : list Note.t) : result (list Note.t) :=
  if s <? 0 then Throw (MongoServerError "Skip value must be non-negative")
  else Ok (firstn (Z.to_nat l) (skipn (Z.to_nat s) (Mongo.sort o (filter keep coll)))).

(** [parseInt (req.query.page) || 1] and [req.query.sort || 'newest']. *)
Definition page_number (page : option string) : Z :=
  JS.number_or (JS.parseInt page) 1.

Definition sort_name (sort : option string) : string :=
  JS.string_or sort "newest".

(** The handler of [GET /], for the parameters [page], [sort] and [search]
    of the request. *)
Definition index_handler (new_RegExp : string -> result matcher)
    (coll : list Note.t) (locals_user : option decoded)
    (page sort : option string) (search : search_param) : Index.response :=
  try_catch
    (let page := page_number page in
     let sort := sort_name sort in
     search <- search_text search ;;
     let sortOptions := sortOptions_of sort in
     match locals_user with
     | None =>
         Ok (Index.Render
               {| Index.notes := []; Index.currentPage := 1; Index.totalPages := 0;
                  Index.totalNotes := 0; Index.sort := sort; Index.search := search |})
     | Some u =>
         regex <- search_regex new_RegExp search ;;
         let query := matches_regex (userid (payload u)) regex in
         let totalNotes := Z.of_nat (List.length (filter query coll)) in
         let totalPages := Math_ceil_div totalNotes limit in
         let page := clamp totalPages page in
         notes <- find_where query sortOptions ((page - 1) * limit) limit coll ;;
         Ok (Index.Render
               {| Index.notes := notes; Index.currentPage := page;
                  Index.totalPages := totalPages; Index.totalNotes := totalNotes;
                  Index.sort := sort; Index.search := search |})
     end)
    (fun _ => Index.Status500 "Error fetching notes").

(** The search parameter of a query whose parameters are texts. *)
Definition search_param_of (q : Query.t) : search_param :=
  match Query.search q with
  | Some s => SearchText s
  | None => SearchAbsent
  end.

(** An engine agrees with the model of regular expressions where the
    model reads the pattern. *)
Definition extends_fragment (new_RegExp : string -> result matcher) : Prop :=
  forall source,
    match RegExp.compile source with
    | RegExp.Pattern p =>
        exists test, new_RegExp source = Ok test /\ forall t, test t = RegExp.test p t
    | RegExp.Invalid _ => exists e, new_RegExp source = Throw e
    | RegExp.Unsupported => True
    end.

(** An engine to run the handler on: the model of regular expressions, and
    a refusal of every pattern that the model does not read.  It stands for
    no engine there; the theorems hold for every engine. *)
Definition fragment_only (source : string) : result matcher :=
  match RegExp.compile source with
  | RegExp.Pattern p => Ok (RegExp.test p)
  | RegExp.Invalid msg => Throw (SyntaxError msg)
  | RegExp.Unsupported => Throw (SyntaxError "outside the model")
  end.

(** The locals of a listing that renders, from the notes that [keep]
    keeps, the page parsed and the texts handed back to the view. *)
Definition listing_where (coll : list Note.t) (keep : Note.t -> bool)
    (page : Z) (o : Mongo.sortOptions) (sort search : string) : Index.locals :=
  let total := Z.of_nat (List.length (filter keep coll)) in
  let pages := Math_ceil_div total limit in
  let p := clamp pages page in
  {| Index.notes := page_slice p (Mongo.sort o (filter keep coll));
     Index.currentPage := p;
     Index.totalPages := pages;
     Index.totalNotes := total;
     Index.sort := sort;
     Index.search := search |}.

(** The integers that a JavaScript number holds exactly: below 2^53
    [parseInt] gives the number written. *)
Definition exact (z : Z) : Prop := Z.abs z < 2 ^ 53.


(** * Properties *)

(** ** JavaScript primitives at sample values *)

Example parseInt_examples :
  JS.parseInt (Some "3") = JS.Num 3 /\ JS.parseInt (Some "  12abc") = JS.Num 12
  /\ JS.parseInt (Some "abc") = JS.NaN /\ JS.parseInt (Some "-4") = JS.Num (-4)
  /\ JS.parseInt (Some "0x1f") = JS.Num 31 /\ JS.parseInt None = JS.NaN
  /\ JS.parseInt (Some "2.9") = JS.Num 2 /\ JS.parseInt (Some "") = JS.NaN.
Proof. repeat split; reflexivity. Qed.

Example trim_examples :
  JS.trim "  a b  " = "a b" /\ JS.trim "   " = "" /\ JS.trim "" = "".
Proof. repeat split; reflexivity. Qed.


(** ** Sorting *)

Lemma insert_Permutation o x l : Permutation (Mongo.insert o x l) (x :: l).
Proof.
  induction l as [|y l IH]; simpl.
  - reflexivity.
  - destruct (Mongo.before o x y).
    + reflexivity.
    + rewrite IH. apply perm_swap.
Qed.

Lemma sort_Permutation o l : Permutation (Mongo.sort o l) l.
Proof.
  induction l as [|x l IH]; simpl.
  - constructor.
  - rewrite insert_Permutation. now constructor.
Qed.

Lemma sort_In o l n : In n (Mongo.sort o l) <-> In n l.
Proof.
  split; apply Permutation_in;
    [apply sort_Permutation | symmetry; apply sort_Permutation].
Qed.

Lemma sort_length o l : List.length (Mongo.sort o l) = List.length l.
Proof. apply Permutation_length, sort_Permutation. Qed.

Lemma ordered_total o a b : ordered o a b \/ ordered o b a.
Proof. unfold ordered; destruct o; simpl; lia. Qed.

Lemma ordered_trans o a b c : ordered o a b -> ordered o b c -> ordered o a c.
Proof. unfold ordered; destruct o; simpl; lia. Qed.

Lemma ordered_antisym o a b :
  ordered o a b -> ordered o b a -> Note.createdAt a = Note.createdAt b.
Proof. unfold ordered; destruct o; simpl; lia. Qed.

Lemma insert_sorted o x l :
  StronglySorted (ordered o) l -> StronglySorted (ordered o) (Mongo.insert o x l).
Proof.
  induction 1 as [|y l Hl IH Hy]; simpl.
  - repeat constructor.
  - destruct (Mongo.before o x y) eqn:E.
    + constructor; [now constructor|].
      constructor; [exact E|].
      eapply Forall_impl; [|exact Hy].
      intros z Hz. eapply ordered_trans; [exact E | exact Hz].
    + constructor; [exact IH|].
      assert (Hyx : ordered o y x).
      { destruct (ordered_total o x y) as [H|H]; [|exact H].
        unfold ordered in H. congruence. }
      rewrite Forall_forall. intros z Hz.
      apply (Permutation_in _ (insert_Permutation o x l)) in Hz.
      destruct Hz as [<-|Hz]; [exact Hyx|].
      rewrite Forall_forall in Hy. now apply Hy.
Qed.

Lemma sort_sorted o l : StronglySorted (ordered o) (Mongo.sort o l).
Proof.
  induction l as [|x l IH]; simpl.
  - constructor.
  - now apply insert_sorted.
Qed.

(** An insertion that finds its place at the head. *)
Lemma insert_head o x l :
  Forall (ordered o x) l -> Mongo.insert o x l = x :: l.
Proof.
  destruct l as [|y l]; simpl; [reflexivity|].
  intros H. inversion H as [|? ? Hxy _]; subst.
  unfold ordered in Hxy. now rewrite Hxy.
Qed.

(** Sorting leaves a sorted list as it is. *)
Lemma sort_of_sorted o l : StronglySorted (ordered o) l -> Mongo.sort o l = l.
Proof.
  induction 1 as [|x l Hl IH Hx]; simpl; [reflexivity|].
  rewrite IH. now apply insert_head.
Qed.

Lemma NoDup_map_injective {A B} (f : A -> B) l a b :
  NoDup (map f l) -> In a l -> In b l -> f a = f b -> a = b.
Proof.
  induction l as [|x l IH]; simpl; [tauto|].
  intros Hnd Ha Hb Hf. inversion Hnd as [|? ? Hx Hl]; subst.
  destruct Ha as [->|Ha], Hb as [->|Hb]; auto.
  - exfalso. apply Hx. rewrite Hf. now apply in_map.
  - exfalso. apply Hx. rewrite <- Hf. now apply in_map.
Qed.

(** Two sorted arrangements of notes with distinct creation times agree. *)
Lemma sorted_unique o l l' :
  NoDup (map Note.createdAt l) ->
  Permutation l l' ->
  StronglySorted (ordered o) l -> StronglySorted (ordered o) l' ->
  l = l'.
Proof.
  revert l'. induction l as [|a l IH]; intros l' Hnd Hp Hs Hs'.
  - now apply Permutation_nil in Hp.
  - destruct l' as [|b l'].
    { symmetry in Hp. now apply Permutation_nil in Hp. }
    assert (Hab : a = b).
    { assert (Ha : In a (b :: l')) by (eapply Permutation_in; [exact Hp|now left]).
      assert (Hb : In b (a :: l))
        by (eapply Permutation_in; [symmetry; exact Hp|now left]).
      destruct Ha as [Ha|Ha]; [now subst|].
      destruct Hb as [Hb|Hb]; [now subst|].
      apply StronglySorted_inv in Hs as [_ Hs].
      apply StronglySorted_inv in Hs' as [_ Hs'].
      rewrite Forall_forall in Hs, Hs'.
      apply (NoDup_map_injective Note.createdAt (a :: l)); auto.
      - now left.
      - now right.
      - apply (ordered_antisym o); auto. }
    subst b. f_equal.
    apply IH.
    + now inversion Hnd.
    + eapply Permutation_cons_inv; exact Hp.
    + now apply StronglySorted_inv in Hs.
    + now apply StronglySorted_inv in Hs'.
Qed.

Lemma filter_Permutation {A} (f : A -> bool) l l' :
  Permutation l l' -> Permutation (filter f l) (filter f l').
Proof.
  induction 1 as [| x l l' _ IH | x y l | l l' l'' _ IH1 _ IH2]; simpl.
  - constructor.
  - destruct (f x); [now constructor | exact IH].
  - destruct (f x), (f y); try reflexivity. apply perm_swap.
  - now transitivity (filter f l').
Qed.


Lemma In_firstn {A} k (l : list A) x : In x (firstn k l) -> In x l.
Proof.
  intros H. rewrite <- (firstn_skipn k l). apply in_or_app. now left.
Qed.

Lemma In_skipn {A} k (l : list A) x : In x (skipn k l) -> In x l.
Proof.
  intros H. rewrite <- (firstn_skipn k l). apply in_or_app. now right.
Qed.


Lemma page_slice_In p l n : In n (page_slice p l) -> In n l.
Proof. unfold page_slice. intros H. eapply In_skipn, In_firstn, H. Qed.

(** ** The listing, unfolded *)

Lemma ceil_div_spec a : 5 * (Math_ceil_div a limit - 1) < a <= 5 * Math_ceil_div a limit.
Proof.
  unfold Math_ceil_div, limit.
  pose proof (Z.div_mod (- a) 5 ltac:(lia)) as E.
  pose proof (Z.mod_pos_bound (- a) 5 ltac:(lia)) as B.
  lia.
Qed.

Lemma countDocuments_nonneg qy coll : 0 <= Mongo.countDocuments qy coll.
Proof. unfold Mongo.countDocuments. lia. Qed.

Lemma pages_nonneg qy coll :
  0 <= Math_ceil_div (Mongo.countDocuments qy coll) limit.
Proof.
  pose proof (ceil_div_spec (Mongo.countDocuments qy coll)).
  pose proof (countDocuments_nonneg qy coll). lia.
Qed.

Lemma clamp_cases pages p :
  (0 < pages /\ pages < p /\ clamp pages p = pages)
  \/ ((pages <= 0 \/ p <= pages) /\ clamp pages p = p).
Proof.
  unfold clamp.
  destruct (0 <? pages) eqn:E1, (pages <? p) eqn:E2; simpl; lia.
Qed.

(** A listing that renders ran a query and shows [listing] of it, from a
    page that is at least 1. *)
Lemma get_index_Render coll u q v :
  get_index coll (Some u) q = Some (Index.Render v) ->
  exists qy,
    query_of u (search_of q) = Some (Ok qy)
    /\ 1 <= Index.currentPage v
    /\ v = listing coll qy q.
Proof.
  unfold get_index.
  destruct (query_of u (search_of q)) as [[qy|e]|] eqn:Q; simpl; try discriminate.
  unfold Mongo.find_sort_skip_limit.
  destruct (_ <? 0) eqn:E; simpl; [discriminate|].
  intros H. injection H as <-. exists qy. split; [reflexivity|]. split.
  - simpl. apply Z.ltb_ge in E. unfold limit in *. lia.
  - reflexivity.
Qed.

(** The listing renders whenever the search is read as a pattern and the
    page is at least 1. *)
Lemma get_index_renders coll u q qy :
  query_of u (search_of q) = Some (Ok qy) ->
  1 <= page_of q ->
  get_index coll (Some u) q = Some (Index.Render (listing coll qy q)).
Proof.
  intros Q Hp. unfold get_index. rewrite Q. simpl.
  unfold Mongo.find_sort_skip_limit.
  pose proof (pages_nonneg qy coll) as Hn.
  destruct (clamp_cases (Math_ceil_div (Mongo.countDocuments qy coll) limit) (page_of q))
    as [(H1 & H2 & H3)|(H1 & H3)].
  - destruct (_ <? 0) eqn:E; [apply Z.ltb_lt in E; unfold limit in *; lia|].
    reflexivity.
  - destruct (_ <? 0) eqn:E; [apply Z.ltb_lt in E; unfold limit in *; lia|].
    reflexivity.
Qed.

(** The query of a listing is scoped to the identity of the request. *)
Lemma query_of_user u s qy :
  query_of u s = Some (Ok qy) -> Mongo.user qy = userid (payload u).
Proof.
  unfold query_of.
  destruct (JS.truthy s); [destruct (RegExp.compile s)|]; intros H;
    try discriminate; injection H as <-; reflexivity.
Qed.

Lemma matches_user qy n : Mongo.matches qy n = true -> Note.user n = Mongo.user qy.
Proof.
  unfold Mongo.matches. intros H. apply andb_prop in H as [H _].
  now apply N.eqb_eq in H.
Qed.

Lemma listing_In coll qy q n :
  In n (Index.notes (listing coll qy q)) -> In n coll /\ Mongo.matches qy n = true.
Proof.
  simpl. intros H. apply page_slice_In in H. apply sort_In in H.
  now apply filter_In in H.
Qed.

(** ** Owner scoping (C1) *)

(** ** Pagination (C3, C10) *)

Lemma page_slice_length p l :
  List.length (page_slice p l)
  = Nat.min 5 (List.length l - Z.to_nat ((p - 1) * 5)).
Proof. unfold page_slice. now rewrite length_firstn, length_skipn. Qed.

(** The query of a listing without search keeps the notes of the owner. *)
Lemma query_of_no_search u :
  query_of u "" = Some (Ok {| Mongo.user := userid (payload u);
                              Mongo.or_title_content := None |}).
Proof. reflexivity. Qed.

Lemma filter_no_search uid coll :
  filter (Mongo.matches {| Mongo.user := uid; Mongo.or_title_content := None |}) coll
  = filter (owned_by uid) coll.
Proof.
  apply filter_ext. intros n. unfold Mongo.matches, owned_by. simpl.
  apply andb_true_r.
Qed.

(** ** The page parameter (C4) *)

(** What [parseInt (req.query.page) || 1] gives: 1 for an absent page, for a
    page without a number and for zero, and the number read otherwise. *)
Lemma page_of_cases (q : Query.t) :
  match JS.parseInt (Query.page q) with
  | JS.NaN => page_of q = 1
  | JS.Num z => if z =? 0 then page_of q = 1 else page_of q = z
  end.
Proof.
  unfold page_of. destruct (JS.parseInt (Query.page q)) as [|z]; simpl; [reflexivity|].
  now destruct (z =? 0).
Qed.

Lemma page_of_absent sort search : page_of (Query.mk None sort search) = 1.
Proof. reflexivity. Qed.

(** C4. A negative page is not replaced by 1: for the page [-1] the
    effective page is -1, and the listing of an identified caller ends in
    the status 500, the store refusing the negative skip. *)
Theorem negative_page_not_defaulted :
  page_of (Query.mk (Some "-1") None None) = -1
  /\ forall (coll : list Note.t) (u : decoded),
       get_index coll (Some u) (Query.mk (Some "-1") None None)
       = Some (Index.Status500 "Error fetching notes").
Proof.
  split; [reflexivity|].
  intros coll u. unfold get_index.
  change (search_of (Query.mk (Some "-1") None None)) with "".
  rewrite query_of_no_search. simpl.
  change (page_of (Query.mk (Some "-1") None None)) with (-1).
  set (qy := {| Mongo.user := _ |}).
  pose proof (pages_nonneg qy coll) as Hn.
  destruct (clamp_cases (Math_ceil_div (Mongo.countDocuments qy coll) limit) (-1))
    as [(H1 & H2 & H3)|(H1 & H3)]; [lia|].
  rewrite H3. reflexivity.
Qed.

(** ** Sort modes (C5) *)

Lemma sortOptions_of_oldest (q : Query.t) :
  sortOptions_of (sort_of q) = Mongo.Ascending <-> Query.sort q = Some "oldest".
Proof.
  unfold sortOptions_of, sort_of, JS.string_or.
  destruct (Query.sort q) as [[|c s]|]; cbn [JS.truthy].
  - split; discriminate.
  - destruct (String.eqb_spec (String c s) "oldest") as [E|E].
    + rewrite E. split; reflexivity.
    + split; [discriminate|]. intros H. exfalso. apply E. congruence.
  - split; discriminate.
Qed.

Lemma sortOptions_of_other (s : string) :
  s <> "oldest" -> sortOptions_of s = Mongo.Descending.
Proof.
  intros H. unfold sortOptions_of. apply String.eqb_neq in H. now rewrite H.
Qed.

(** The notes of the whole listing when an owner has the three notes
    [l], sorted already, whatever the order of the scan. *)
Lemma sort_of_scan o (uid : ObjectId) (coll l : list Note.t) :
  Permutation coll l ->
  Forall (fun n => Note.user n = uid) l ->
  NoDup (map Note.createdAt l) ->
  StronglySorted (ordered o) l ->
  Mongo.sort o (filter (owned_by uid) coll) = l.
Proof.
  intros Hp Hu Hnd Hs.
  assert (Hf : filter (owned_by uid) l = l).
  { apply forallb_filter_id. apply forallb_forall. intros n Hn.
    rewrite Forall_forall in Hu. unfold owned_by. apply N.eqb_eq. now apply Hu. }
  symmetry. apply (sorted_unique o); auto.
  - rewrite sort_Permutation. rewrite <- Hf at 1.
    apply filter_Permutation. now symmetry.
  - apply sort_sorted.
Qed.

Lemma sort_of_not_oldest page s search :
  s <> "oldest" -> sort_of (Query.mk page (Some s) search) <> "oldest".
Proof.
  intros H. unfold sort_of, JS.string_or. cbn [Query.sort].
  destruct s; cbn [JS.truthy]; [discriminate | exact H].
Qed.

(** The listing of the three notes [l] of an owner, however scanned. *)
Lemma three_notes_listing o sort (u : decoded) (coll l : list Note.t) :
  sortOptions_of (sort_of (Query.mk None sort None)) = o ->
  Permutation coll l ->
  List.length l = 3%nat ->
  Forall (fun n => Note.user n = userid (payload u)) l ->
  NoDup (map Note.createdAt l) ->
  StronglySorted (ordered o) l ->
  exists v, get_index coll (Some u) (Query.mk None sort None) = Some (Index.Render v)
            /\ Index.notes v = l.
Proof.
  intros Ho Hp Hl Hu Hnd Hs.
  pose (q := Query.mk None sort None).
  set (qy := {| Mongo.user := userid (payload u); Mongo.or_title_content := None |}).
  exists (listing coll qy q). split.
  - apply get_index_renders; [apply query_of_no_search | reflexivity].
  - unfold listing, q. cbn [Index.notes]. rewrite Ho.
    assert (T : Mongo.countDocuments qy coll = 3).
    { unfold Mongo.countDocuments, qy. rewrite filter_no_search.
      rewrite <- (sort_length o), (sort_of_scan o _ coll l), Hl; auto. }
    rewrite T. unfold qy. rewrite filter_no_search, (sort_of_scan o _ coll l); auto.
    destruct l as [|a [|b [|c [|d l]]]]; try discriminate. reflexivity.
Qed.

(** C5. The order of the listing is ascending in the creation time exactly
    for the sort [oldest] and descending for every other value; no sort is
    the sort [newest], and a value that is not [oldest] lists as [newest]
    does, the value handed back to the view apart; three notes of an owner
    created at increasing times are listed in that order for [oldest] and in
    the reverse order for [newest], however the store scans them. *)
Theorem sort_modes (coll : list Note.t) (lu : option decoded) :
  (forall q, sortOptions_of (sort_of q) = Mongo.Ascending
             <-> Query.sort q = Some "oldest")
  /\ (forall q, Query.sort q <> Some "oldest"
                -> sortOptions_of (sort_of q) = Mongo.Descending)
  /\ (forall page search,
        get_index coll lu (Query.mk page None search)
        = get_index coll lu (Query.mk page (Some "newest") search))
  /\ (forall page search s,
        s <> "oldest" ->
        get_index coll lu (Query.mk page (Some s) search)
        = echoing_sort (sort_of (Query.mk page (Some s) search))
            (get_index coll lu (Query.mk page (Some "newest") search)))
  /\ (forall u n1 n2 n3,
        lu = Some u ->
        Permutation coll [n1; n2; n3] ->
        Forall (fun n => Note.user n = userid (payload u)) [n1; n2; n3] ->
        Note.createdAt n1 < Note.createdAt n2 < Note.createdAt n3 ->
        (exists v, get_index coll lu (Query.mk None (Some "oldest") None)
                   = Some (Index.Render v)
                   /\ Index.notes v = [n1; n2; n3])
        /\ (exists v, get_index coll lu (Query.mk None (Some "newest") None)
                      = Some (Index.Render v)
                      /\ Index.notes v = [n3; n2; n1])).
Proof.
  split; [exact sortOptions_of_oldest|].
  split.
  { intros q H. destruct (sortOptions_of (sort_of q)) eqn:E; [|reflexivity].
    now apply sortOptions_of_oldest in E. }
  split; [reflexivity|].
  split.
  { intros page search s Hs.
    pose proof (sortOptions_of_other _ (sort_of_not_oldest page s search Hs)) as D.
    unfold get_index. rewrite D.
    change (sortOptions_of (sort_of (Query.mk page (Some "newest") search)))
      with Mongo.Descending.
    change (page_of (Query.mk page (Some s) search))
      with (page_of (Query.mk page (Some "newest") search)).
    change (search_of (Query.mk page (Some s) search))
      with (search_of (Query.mk page (Some "newest") search)).
    destruct lu as [u|]; [|reflexivity].
    destruct (query_of u _) as [[qy|e]|]; try reflexivity.
    simpl. destruct (Mongo.find_sort_skip_limit _ _ _ _ _); reflexivity. }
  intros u n1 n2 n3 -> Hp Hu [H12 H23].
  assert (Hnd : NoDup (map Note.createdAt [n1; n2; n3])).
  { simpl. repeat constructor; simpl; intuition lia. }
  split.
  - apply (three_notes_listing Mongo.Ascending); auto.
    repeat constructor; unfold ordered; simpl; lia.
  - apply (three_notes_listing Mongo.Descending).
    + reflexivity.
    + rewrite Hp. change [n3; n2; n1] with (rev [n1; n2; n3]). apply Permutation_rev.
    + reflexivity.
    + inversion Hu as [|? ? U1 Hu2]; inversion Hu2 as [|? ? U2 Hu3];
        inversion Hu3 as [|? ? U3 _]; subst. now repeat constructor.
    + simpl. repeat constructor; simpl; intuition lia.
    + repeat constructor; unfold ordered; simpl; lia.
Qed.

(** ** Order within the listing (C9) *)

Lemma matches_owned qy n : Mongo.matches qy n = true -> owned_by (Mongo.user qy) n = true.
Proof. unfold Mongo.matches, owned_by. intros H. now apply andb_prop in H. Qed.

Lemma NoDup_map_filter {A B} (f : A -> B) (g h : A -> bool) l :
  (forall x, g x = true -> h x = true) ->
  NoDup (map f (filter h l)) -> NoDup (map f (filter g l)).
Proof.
  intros Hgh. induction l as [|x l IH]; simpl; [auto|].
  destruct (g x) eqn:G.
  - rewrite (Hgh x G). simpl. intros H. inversion H as [|? ? Hx Hl]; subst.
    constructor; [|now apply IH].
    intros Hin. apply Hx. apply in_map_iff in Hin as (y & <- & Hy).
    apply in_map. apply filter_In in Hy as [Hy Gy]. apply filter_In. auto.
  - destruct (h x); simpl; intros H; [inversion H; subst|]; now apply IH.
Qed.

(** The whole sorted result does not depend on the scan when the creation
    times of the owner's notes are distinct. *)
Lemma sort_filter_Permutation o qy (coll coll' : list Note.t) :
  Permutation coll coll' ->
  NoDup (map Note.createdAt (filter (owned_by (Mongo.user qy)) coll)) ->
  Mongo.sort o (filter (Mongo.matches qy) coll)
  = Mongo.sort o (filter (Mongo.matches qy) coll').
Proof.
  intros Hp Hnd. apply (sorted_unique o).
  - eapply Permutation_NoDup.
    + apply Permutation_map. symmetry. apply sort_Permutation.
    + eapply NoDup_map_filter; [|exact Hnd]. apply matches_owned.
  - rewrite !sort_Permutation. now apply filter_Permutation.
  - apply sort_sorted.
  - apply sort_sorted.
Qed.


(** ** Delete (C6) *)

Section SessionProperties.

Context (L : Libraries).

(** A request whose token the middleware decodes passes [isLoggedIn]. *)
Lemma isLoggedIn_of_identity e c u :
  token_middleware L e c = Some u -> isLoggedIn L e c = Next.
Proof.
  unfold token_middleware, isLoggedIn.
  destruct c as [token|]; [|discriminate].
  destruct (jwt_verify L token (secret_of e)); simpl; [reflexivity|discriminate].
Qed.

(** A delete that matches no note removes nothing. *)
Lemma findOneAndDelete_none id u coll :
  (forall n, In n coll -> Note._id n = id -> Note.user n <> u) ->
  Mongo.findOneAndDelete id u coll = (None, coll).
Proof.
  induction coll as [|n coll IH]; intros H; simpl; [reflexivity|].
  destruct (N.eqb (Note._id n) id && N.eqb (Note.user n) u) eqn:E.
  - apply andb_prop in E as [E1 E2].
    apply N.eqb_eq in E1, E2. exfalso. apply (H n); auto. now left.
  - rewrite IH; [reflexivity|]. intros m Hm. apply H. now right.
Qed.

Lemma post_delete_not_found e c u id coll :
  token_middleware L e c = Some u ->
  (forall n, In n coll -> Note._id n = id -> Note.user n <> userid (payload u)) ->
  post_delete L e c (IdText id) coll = (NotFound, coll).
Proof.
  intros Hu H. unfold post_delete.
  rewrite (isLoggedIn_of_identity _ _ _ Hu), Hu. simpl.
  now rewrite findOneAndDelete_none.
Qed.

(** C6. For a caller with an identity and a store whose ids are distinct,
    deleting by the id of a note of another owner answers [NotFound] and
    leaves every note in place; so does deleting by an id that no note
    has: the two answers are the same. *)
Theorem delete_of_foreign_note e c u (n : Note.t) (coll : list Note.t) :
  token_middleware L e c = Some u ->
  NoDup (map Note._id coll) ->
  In n coll ->
  Note.user n <> userid (payload u) ->
  post_delete L e c (IdText (Note._id n)) coll = (NotFound, coll)
  /\ forall missing, ~ In missing (map Note._id coll) ->
       post_delete L e c (IdText missing) coll
       = post_delete L e c (IdText (Note._id n)) coll.
Proof.
  intros Hu Hnd Hn Hown.
  assert (A : post_delete L e c (IdText (Note._id n)) coll = (NotFound, coll)).
  { apply (post_delete_not_found e c u); [exact Hu|].
    intros m Hm Hid.
    now rewrite (NoDup_map_injective Note._id coll m n Hnd Hm Hn Hid). }
  split; [exact A|].
  intros missing Hmiss. rewrite A.
  apply (post_delete_not_found e c u); [exact Hu|].
  intros m Hm Hid. exfalso. apply Hmiss. rewrite <- Hid. now apply in_map.
Qed.

(** ** Login (C7, C8) *)

(** The two branches of [POST /login] that refuse a login, an email that no
    user has and a password that [bcrypt.compare] finds different from the
    hash, end in the same outcome, [InvalidCredentials]: the same message,
    the same redirect, no cookie. *)
Theorem login_failures_collapse e now (users : list User.t) (email : string) :
  (Mongo.findOne_email email users = None ->
   forall password, post_login L e now users email password = InvalidCredentials L)
  /\ (forall user password,
        Mongo.findOne_email email users = Some user ->
        bcrypt_compare L password (User.password user) = false ->
        post_login L e now users email (Some password) = InvalidCredentials L).
Proof.
  split.
  - intros H password. unfold post_login. now rewrite H.
  - intros user password H Hc. unfold post_login. rewrite H. simpl. now rewrite Hc.
Qed.

(** C8. With a library whose verifier returns what was signed, a login
    with the password of the user sets a token that the middleware of a
    later request decodes to the id and the email of that user; and a
    token that the verifier refuses leaves the request without identity:
    the listing is the one of an anonymous caller, and it renders. *)
Theorem token_round_trip e now (users : list User.t)
    (email password : string) (user : User.t) :
  verify_sign L ->
  Mongo.findOne_email email users = Some user ->
  bcrypt_compare L password (User.password user) = true ->
  (exists token,
     post_login L e now users email (Some password)
     = ({| flash_type := "success"; flash_message := "Logged in successfully";
           location := "/" |}, Some token)
     /\ token_middleware L e (Some token)
        = Some {| payload := {| email := User.email user;
                                userid := User._id user |};
                  iat := now |})
  /\ (forall token err,
        jwt_verify L token (secret_of e) = Throw err ->
        token_middleware L e (Some token) = None
        /\ forall coll q,
             get_index_request L e (Some token) coll q = get_index coll None q
             /\ exists v, get_index_request L e (Some token) coll q
                          = Some (Index.Render v)).
Proof.
  intros Hlaw Hu Hc. split.
  - eexists. unfold post_login. rewrite Hu. simpl. rewrite Hc. simpl.
    split; [reflexivity|].
    unfold token_middleware. now rewrite Hlaw.
  - intros token err Hv.
    assert (A : token_middleware L e (Some token) = None).
    { unfold token_middleware. now rewrite Hv. }
    split; [exact A|].
    intros coll q. unfold get_index_request. rewrite A.
    split; [reflexivity|]. eexists. reflexivity.
Qed.

End SessionProperties.

Lemma plain_libraries_verify_sign : verify_sign plain_libraries.
Proof. intros p k t. simpl. now rewrite String.eqb_refl. Qed.

(** ** Search (C2) *)

Lemma pattern_char_inv c :
  RegExp.pattern_char c = true ->
  RegExp.quantifier_of c = None
  /\ RegExp.other_syntax_char c = false
  /\ Ascii.eqb c "." = false.
Proof.
  unfold RegExp.pattern_char.
  destruct (RegExp.quantifier_of c); [discriminate|].
  intros H. apply andb_prop in H as [H1 H2].
  apply negb_true_iff in H1, H2. auto.
Qed.

Lemma parse_plain st acc t :
  plain t = true ->
  RegExp.parse st acc t = RegExp.Pattern (rev acc ++ literal t)%list.
Proof.
  revert st acc. induction t as [|c t IH]; intros st acc H; simpl.
  - now rewrite app_nil_r.
  - simpl in H. apply andb_prop in H as [Hc Ht].
    apply pattern_char_inv in Hc as (-> & -> & ->).
    rewrite IH by exact Ht. simpl. now rewrite <- app_assoc.
Qed.

(** A term without syntax characters is read as itself. *)
Lemma compile_plain t :
  plain t = true -> RegExp.compile t = RegExp.Pattern (literal t).
Proof. intros H. unfold RegExp.compile. now rewrite parse_plain. Qed.

Lemma matches_here_literal t s :
  RegExp.matches_here (literal t) s = prefix_ignoring_case t s.
Proof.
  revert s. induction t as [|a t IH]; intros s; simpl; [reflexivity|].
  destruct s as [|b s]; [reflexivity|]. now rewrite IH.
Qed.

Lemma test_literal t s :
  RegExp.test (literal t) s = includes_ignoring_case t s.
Proof.
  induction s as [|b s IH].
  - simpl. now rewrite matches_here_literal.
  - cbn [RegExp.test includes_ignoring_case].
    now rewrite matches_here_literal, IH.
Qed.

Lemma toLowerCase_app s t :
  JS.toLowerCase (s ++ t) = JS.toLowerCase s ++ JS.toLowerCase t.
Proof. induction s as [|c s IH]; simpl; [reflexivity | now rewrite IH]. Qed.

Lemma prefix_ignoring_case_spec t s :
  prefix_ignoring_case t s = true
  <-> exists post, JS.toLowerCase s = JS.toLowerCase t ++ post.
Proof.
  revert s. induction t as [|a t IH]; intros s; simpl.
  - split; [intros _; now exists (JS.toLowerCase s) | reflexivity].
  - destruct s as [|b s]; simpl.
    + split; [discriminate | intros [post H]; discriminate].
    + rewrite andb_true_iff, IH, Ascii.eqb_eq. split.
      * intros [E [post H]]. exists post. now rewrite E, H.
      * intros [post H]. injection H as E H. split; [now symmetry | now exists post].
Qed.

(** The decision of the containment is the containment of the
    specification. *)
Lemma includes_ignoring_case_spec t s :
  includes_ignoring_case t s = true <-> contains_ignoring_case t s.
Proof.
  unfold contains_ignoring_case, is_substring.
  induction s as [|b s IH]; cbn [includes_ignoring_case]; rewrite orb_true_iff.
  - rewrite prefix_ignoring_case_spec. split.
    + intros [[post H]|H]; [|discriminate]. now exists "", post.
    + intros (pre & post & H). left. destruct pre; [now exists post|discriminate].
  - rewrite prefix_ignoring_case_spec, IH. split.
    + intros [[post H]|(pre & post & H)].
      * now exists "", post.
      * exists (String (JS.to_lower b) pre), post. simpl. now rewrite H.
    + intros (pre & post & H). destruct pre as [|c pre].
      * left. now exists post.
      * right. simpl in H. injection H as _ H. now exists pre, post.
Qed.

(** The search for a term without syntax characters, empty or not, keeps
    the notes of the owner whose title or content contains the term,
    whatever the case of the letters. *)
Lemma search_plain_term (u : decoded) (term : string) :
  plain term = true ->
  exists qy,
    query_of u term = Some (Ok qy)
    /\ forall n, Mongo.matches qy n = searched (userid (payload u)) term n.
Proof.
  intros H. unfold query_of. destruct (JS.truthy term) eqn:T.
  - rewrite (compile_plain _ H). eexists. split; [reflexivity|].
    intros n. unfold Mongo.matches, searched. simpl.
    now rewrite T, !test_literal.
  - eexists. split; [reflexivity|].
    intros n. unfold Mongo.matches, searched. simpl. now rewrite T.
Qed.

(** The listing for a search term without syntax characters: it renders for
    a page of at least 1, and what it counts and pages is the set of the
    notes of the owner whose title or content contains the trimmed term. *)
Lemma listing_of_plain_term (coll : list Note.t) (u : decoded) (q : Query.t) :
  plain (search_of q) = true ->
  1 <= page_of q ->
  exists v,
    get_index coll (Some u) q = Some (Index.Render v)
    /\ let found := filter (searched (userid (payload u)) (search_of q)) coll in
       Index.totalNotes v = Z.of_nat (List.length found)
       /\ Index.notes v
          = page_slice (Index.currentPage v)
                       (Mongo.sort (sortOptions_of (sort_of q)) found).
Proof.
  intros H Hp. destruct (search_plain_term u _ H) as (qy & Q & M).
  exists (listing coll qy q). split; [now apply get_index_renders|].
  assert (E : filter (Mongo.matches qy) coll
              = filter (searched (userid (payload u)) (search_of q)) coll)
    by (apply filter_ext; exact M).
  simpl. unfold Mongo.countDocuments. rewrite E. split; reflexivity.
Qed.

(** A search term that is empty once trimmed is no search term. *)
Lemma blank_search_is_no_search coll lu page sort (s : string) :
  JS.trim s = "" ->
  get_index coll lu (Query.mk page sort (Some s))
  = get_index coll lu (Query.mk page sort None).
Proof.
  intros H. unfold get_index.
  assert (E : search_of (Query.mk page sort (Some s)) = "").
  { unfold search_of. simpl. now destruct (JS.truthy s). }
  rewrite E. reflexivity.
Qed.

Lemma grocery_list_example :
  let found term :=
    match get_index [grocery] (Some alice) (Query.mk None None (Some term)) with
    | Some (Index.Render v) => Some (Index.notes v)
    | _ => None
    end in
  found "grocery" = Some [grocery] /\ found "GROCERY" = Some [grocery]
  /\ found "list" = Some [grocery] /\ found "  list " = Some [grocery]
  /\ found "groceries" = Some [].
Proof. repeat split; reflexivity. Qed.

(** C2. The search term is read as a pattern, not as text: the term [.]
    finds a note that has no dot in its title or content, and the term
    [c++] ends the listing in the status 500 although a note of the owner
    contains it. *)
Theorem search_term_read_as_pattern :
  let abc := note_at 1 1 "abc" 10 in
  let tips := note_at 2 1 "c++ tips" 20 in
  (exists v, get_index [abc] (Some alice) (Query.mk None None (Some "."))
             = Some (Index.Render v)
             /\ Index.notes v = [abc])
  /\ ~ contains_ignoring_case "." (Note.title abc)
  /\ ~ contains_ignoring_case "." (Note.content abc)
  /\ contains_ignoring_case "c++" (Note.title tips)
  /\ get_index [tips] (Some alice) (Query.mk None None (Some "c++"))
     = Some (Index.Status500 "Error fetching notes").
Proof.
  cbv zeta. split; [eexists; split; reflexivity|].
  rewrite <- !includes_ignoring_case_spec.
  repeat split; try reflexivity; vm_compute; discriminate.
Qed.

(** ** Creation, and the other branches of login and delete *)

Section OtherBranches.

Context (L : Libraries).

(** A note that [POST /notes] adds belongs to the identity of the
    request; the notes already there are kept. *)
Lemma post_notes_owner e c u now fresh title content file coll r coll' :
  token_middleware L e c = Some u ->
  post_notes L e c now fresh title content file coll = (r, coll') ->
  forall n, In n coll' -> In n coll \/ Note.user n = userid (payload u).
Proof.
  intros Hu. unfold post_notes.
  rewrite (isLoggedIn_of_identity L _ _ _ Hu), Hu.
  destruct (_ || _); simpl; intros H; injection H as _ <-; intros n Hn.
  - now left.
  - apply in_app_or in Hn as [Hn|[<-|[]]]; [now left | now right].
Qed.

(** The listing of another identity shows none of the notes that the
    request added. *)
Lemma created_note_hidden_from_others
    e c a now fresh title content file coll r coll' (b : decoded) q v :
  token_middleware L e c = Some a ->
  post_notes L e c now fresh title content file coll = (r, coll') ->
  userid (payload b) <> userid (payload a) ->
  get_index coll' (Some b) q = Some (Index.Render v) ->
  forall n, In n (Index.notes v) -> In n coll.
Proof.
  intros Ha Hpost Hab Hv n Hn.
  apply get_index_Render in Hv as (qy & Q & _ & ->).
  apply listing_In in Hn as [Hin Hm].
  apply matches_user in Hm. rewrite (query_of_user _ _ _ Q) in Hm.
  destruct (post_notes_owner _ _ _ _ _ _ _ _ _ _ _ Ha Hpost n Hin) as [H|H];
    [exact H | congruence].
Qed.

(** A login that sends no password for the email of a user ends in the
    [catch] of the handler. *)
Lemma login_without_password e now users mail user :
  Mongo.findOne_email mail users = Some user ->
  post_login L e now users mail None
  = ({| flash_type := "error"; flash_message := "Error logging in";
        location := "/login" |}, None).
Proof. intros H. unfold post_login. now rewrite H. Qed.

(** A delete by an id that is not the text of an ObjectId ends in the
    [catch] of the handler and removes nothing. *)
Lemma post_delete_malformed_id e c u s coll :
  token_middleware L e c = Some u ->
  post_delete L e c (OtherText s) coll
  = ({| flash_type := "error"; flash_message := "Error deleting note";
        location := "/" |}, coll).
Proof.
  intros Hu. unfold post_delete.
  now rewrite (isLoggedIn_of_identity L _ _ _ Hu), Hu.
Qed.

Lemma findOneAndDelete_some id u coll n :
  NoDup (map Note._id coll) ->
  In n coll -> Note._id n = id -> Note.user n = u ->
  exists rest,
    Mongo.findOneAndDelete id u coll = (Some n, rest)
    /\ ~ In n rest
    /\ forall m, In m rest <-> In m coll /\ m <> n.
Proof.
  induction coll as [|x coll IH]; intros Hnd Hin Hid Hu; [destruct Hin|].
  simpl. inversion Hnd as [|? ? Hx Hnd']; subst.
  destruct (N.eqb (Note._id x) (Note._id n) && N.eqb (Note.user x) (Note.user n)) eqn:E.
  - apply andb_prop in E as [E _]. apply N.eqb_eq in E.
    assert (x = n).
    { apply (NoDup_map_injective Note._id (x :: coll)); auto. now left. }
    subst x. exists coll.
    assert (Hn : ~ In n coll) by (intros H; apply Hx; now apply in_map).
    split; [reflexivity|]. split; [exact Hn|].
    intros m. split.
    + intros Hm. split; [now right | congruence].
    + intros [[<-|Hm] Hne]; [congruence | exact Hm].
  - destruct Hin as [->|Hin].
    { rewrite !N.eqb_refl in E. discriminate. }
    destruct (IH Hnd' Hin eq_refl eq_refl) as (rest & -> & Hn & Hrest).
    exists (x :: rest). split; [reflexivity|].
    assert (Hxn : x <> n) by (intros ->; apply Hx; now apply in_map).
    split.
    + intros [H|H]; [now apply Hxn | now apply Hn].
    + intros m. simpl. rewrite Hrest. split.
      * intros [<-|[Hm Hne]]; auto.
      * intros [[<-|Hm] Hne]; auto.
Qed.

(** A delete of a note of the caller removes this note and no other. *)
Lemma post_delete_own_note e c u (n : Note.t) coll :
  token_middleware L e c = Some u ->
  NoDup (map Note._id coll) ->
  In n coll ->
  Note.user n = userid (payload u) ->
  exists rest,
    post_delete L e c (IdText (Note._id n)) coll
    = ({| flash_type := "success"; flash_message := "Note deleted";
          location := "/" |}, rest)
    /\ forall m, In m rest <-> In m coll /\ m <> n.
Proof.
  intros Hu Hnd Hin Hown.
  destruct (findOneAndDelete_some (Note._id n) (userid (payload u)) coll n
              Hnd Hin eq_refl Hown) as (rest & E & _ & Hrest).
  exists rest. split; [|exact Hrest].
  unfold post_delete.
  rewrite (isLoggedIn_of_identity L _ _ _ Hu), Hu. simpl. now rewrite E.
Qed.

End OtherBranches.

(** ** Every order of equal creation times is the order of some scan *)

Lemma filter_partition_Permutation {A} (f : A -> bool) l :
  Permutation l (filter f l ++ filter (fun x => negb (f x)) l)%list.
Proof.
  induction l as [|x l IH]; simpl; [constructor|].
  destruct (f x); simpl.
  - now constructor.
  - now apply Permutation_cons_app.
Qed.

Lemma filter_none {A} (f : A -> bool) l :
  filter f (filter (fun x => negb (f x)) l) = [].
Proof.
  induction l as [|x l IH]; simpl; [reflexivity|].
  destruct (f x) eqn:E; simpl; [exact IH | now rewrite E].
Qed.

Lemma every_tie_order_is_a_scan o qy (coll l : list Note.t) :
  Permutation (filter (Mongo.matches qy) coll) l ->
  StronglySorted (ordered o) l ->
  exists coll',
    Permutation coll coll' /\ Mongo.sort o (filter (Mongo.matches qy) coll') = l.
Proof.
  intros Hp Hs.
  exists (l ++ filter (fun n => negb (Mongo.matches qy n)) coll)%list. split.
  - rewrite <- Hp. apply filter_partition_Permutation.
  - rewrite filter_app, filter_none, app_nil_r.
    rewrite forallb_filter_id; [now apply sort_of_sorted|].
    apply forallb_forall. intros n Hn.
    apply (Permutation_in _ (Permutation_sym Hp)) in Hn.
    now apply filter_In in Hn.
Qed.

(** ** The theorems at sample data *)

Lemma sort_modes_witness :
  let n1 := note_at 1 1 "a" 10 in
  let n2 := note_at 2 1 "b" 20 in
  let n3 := note_at 3 1 "c" 30 in
  Permutation [n2; n3; n1] three_notes
  /\ (exists v, get_index [n2; n3; n1] (Some alice) (Query.mk None (Some "oldest") None)
                = Some (Index.Render v)
                /\ Index.notes v = [n1; n2; n3])
  /\ (exists v, get_index [n2; n3; n1] (Some alice) (Query.mk None (Some "newest") None)
                = Some (Index.Render v)
                /\ Index.notes v = [n3; n2; n1]).
Proof.
  cbv zeta.
  assert (P : Permutation [note_at 2 1 "b" 20; note_at 3 1 "c" 30; note_at 1 1 "a" 10]
                          three_notes).
  { unfold three_notes. symmetry. apply Permutation_cons_append. }
  split; [exact P|].
  apply (proj2 (proj2 (proj2 (proj2 (sort_modes _ (Some alice))))) alice).
  - reflexivity.
  - exact P.
  - repeat constructor.
  - simpl. lia.
Defined.

Lemma delete_of_foreign_note_witness :
  let e := {| JWT_SECRET := None |} in
  let n := note_at 99 2 "other" 50 in
  token_middleware plain_libraries e alice_cookie = Some alice
  /\ NoDup (map Note._id shared_store)
  /\ In n shared_store
  /\ Note.user n <> userid (payload alice)
  /\ post_delete plain_libraries e alice_cookie (IdText 99%N) shared_store
     = (NotFound, shared_store)
  /\ post_delete plain_libraries e alice_cookie (IdText 1234%N) shared_store
     = post_delete plain_libraries e alice_cookie (IdText 99%N) shared_store.
Proof.
  cbv zeta.
  assert (Hnd : NoDup (map Note._id shared_store)).
  { simpl. repeat constructor; simpl; intuition discriminate. }
  assert (Hin : In (note_at 99 2 "other" 50) shared_store).
  { simpl. tauto. }
  assert (Hown : Note.user (note_at 99 2 "other" 50) <> userid (payload alice)).
  { simpl. discriminate. }
  pose proof (delete_of_foreign_note plain_libraries {| JWT_SECRET := None |}
                alice_cookie alice _ shared_store eq_refl Hnd Hin Hown) as [A B].
  split; [reflexivity|]. split; [exact Hnd|]. split; [exact Hin|].
  split; [exact Hown|]. split; [exact A|].
  apply B. simpl. intuition discriminate.
Defined.

Lemma login_failures_collapse_witness :
  let e := {| JWT_SECRET := None |} in
  Mongo.findOne_email "carol@example.org" sample_users = None
  /\ post_login plain_libraries e 5 sample_users "carol@example.org" (Some "guess")
     = InvalidCredentials plain_libraries
  /\ bcrypt_compare plain_libraries "guess" "$wonderland" = false
  /\ post_login plain_libraries e 5 sample_users "alice@example.org" (Some "guess")
     = InvalidCredentials plain_libraries.
Proof.
  cbv zeta.
  pose proof (login_failures_collapse plain_libraries {| JWT_SECRET := None |} 5
                sample_users "carol@example.org") as [A _].
  pose proof (login_failures_collapse plain_libraries {| JWT_SECRET := None |} 5
                sample_users "alice@example.org") as [_ B].
  split; [reflexivity|]. split; [apply A; reflexivity|].
  split; [reflexivity|].
  exact (B (User.mk 1%N "alice" "alice@example.org" "$wonderland" 30 []) "guess"
           eq_refl eq_refl).
Defined.

Lemma token_round_trip_witness :
  let e := {| JWT_SECRET := None |} in
  verify_sign plain_libraries
  /\ bcrypt_compare plain_libraries "wonderland" "$wonderland" = true
  /\ exists token,
       post_login plain_libraries e 5 sample_users "alice@example.org" (Some "wonderland")
       = ({| flash_type := "success"; flash_message := "Logged in successfully";
             location := "/" |}, Some token)
       /\ token_middleware plain_libraries e (Some token)
          = Some {| payload := {| email := "alice@example.org"; userid := 1%N |};
                    iat := 5 |}.
Proof.
  cbv zeta. split; [exact plain_libraries_verify_sign|]. split; [reflexivity|].
  exact (proj1 (token_round_trip plain_libraries {| JWT_SECRET := None |} 5 sample_users
                  "alice@example.org" "wonderland"
                  (User.mk 1%N "alice" "alice@example.org" "$wonderland" 30 [])
                  plain_libraries_verify_sign eq_refl eq_refl)).
Defined.

(** * Further properties *)

(** ** The page parameter read back *)

Lemma digits_decimal (c : ascii) (k : nat) (a : nat) (s : string) :
  JS.digit_value c = Some (Z.of_nat k) -> (k < 10)%nat ->
  JS.digits 10 (Some (Z.of_nat a)) (String c s)
  = JS.digits 10 (Some (Z.of_nat (k + Nat.tail_mul 10 a))) s.
Proof.
  intros Hc Hk. cbn [JS.digits]. rewrite Hc.
  destruct (Z.ltb_spec (Z.of_nat k) 10) as [_|H]; [|lia].
  rewrite Nat.tail_mul_spec. do 2 f_equal. lia.
Qed.

Lemma digits_string_of_uint (d : Decimal.uint) (a : nat) :
  JS.digits 10 (Some (Z.of_nat a)) (NilEmpty.string_of_uint d)
  = Some (Z.of_nat (Nat.of_uint_acc d a)).
Proof.
  revert a. induction d; intros a; cbn [NilEmpty.string_of_uint Nat.of_uint_acc];
    [reflexivity|..].
  - rewrite (digits_decimal _ 0); [apply IHd | reflexivity | lia].
  - rewrite (digits_decimal _ 1); [apply IHd | reflexivity | lia].
  - rewrite (digits_decimal _ 2); [apply IHd | reflexivity | lia].
  - rewrite (digits_decimal _ 3); [apply IHd | reflexivity | lia].
  - rewrite (digits_decimal _ 4); [apply IHd | reflexivity | lia].
  - rewrite (digits_decimal _ 5); [apply IHd | reflexivity | lia].
  - rewrite (digits_decimal _ 6); [apply IHd | reflexivity | lia].
  - rewrite (digits_decimal _ 7); [apply IHd | reflexivity | lia].
  - rewrite (digits_decimal _ 8); [apply IHd | reflexivity | lia].
  - rewrite (digits_decimal _ 9); [apply IHd | reflexivity | lia].
Qed.

Lemma parseInt_string_of_uint (d : Decimal.uint) :
  JS.parseInt_string (NilZero.string_of_uint d) = JS.Num (Z.of_nat (Nat.of_uint d)).
Proof.
  assert (F : forall k s,
             match JS.digits 10 (Some (Z.of_nat k)) (NilEmpty.string_of_uint s) with
             | Some m => JS.Num (1 * m)
             | None => JS.NaN
             end = JS.Num (Z.of_nat (Nat.of_uint_acc s k))).
  { intros k s. rewrite digits_string_of_uint. now rewrite Z.mul_1_l. }
  unfold Nat.of_uint.
  destruct d as [|d|d|d|d|d|d|d|d|d|d]; [reflexivity|..];
    cbn [NilZero.string_of_uint NilEmpty.string_of_uint Nat.of_uint_acc];
    change (Nat.tail_mul 10 0) with 0%nat.
  - destruct d as [|d|d|d|d|d|d|d|d|d|d]; [reflexivity|..];
      cbn [NilEmpty.string_of_uint Nat.of_uint_acc];
      change (Nat.tail_mul 10 0) with 0%nat.
    + exact (F 0%nat (Decimal.D0 d)).
    + exact (F 0%nat (Decimal.D1 d)).
    + exact (F 0%nat (Decimal.D2 d)).
    + exact (F 0%nat (Decimal.D3 d)).
    + exact (F 0%nat (Decimal.D4 d)).
    + exact (F 0%nat (Decimal.D5 d)).
    + exact (F 0%nat (Decimal.D6 d)).
    + exact (F 0%nat (Decimal.D7 d)).
    + exact (F 0%nat (Decimal.D8 d)).
    + exact (F 0%nat (Decimal.D9 d)).
  - exact (F 1%nat d).
  - exact (F 2%nat d).
  - exact (F 3%nat d).
  - exact (F 4%nat d).
  - exact (F 5%nat d).
  - exact (F 6%nat d).
  - exact (F 7%nat d).
  - exact (F 8%nat d).
  - exact (F 9%nat d).
Qed.

Lemma parseInt_page_text (n : nat) :
  JS.parseInt (Some (page_text n)) = JS.Num (Z.of_nat n).
Proof.
  unfold JS.parseInt, page_text.
  now rewrite parseInt_string_of_uint, DecimalNat.Unsigned.of_to.
Qed.

Lemma page_of_page_text (n : nat) sort search :
  (1 <= n)%nat -> page_of (Query.mk (Some (page_text n)) sort search) = Z.of_nat n.
Proof.
  intros Hn. unfold page_of. cbn [Query.page]. rewrite parseInt_page_text.
  cbn [JS.number_or]. destruct (Z.eqb_spec (Z.of_nat n) 0); [lia | reflexivity].
Qed.

(** ** Pages of the listing *)

(** The fields of [listing], one by one. *)
Lemma listing_fields coll qy q :
  let total := Mongo.countDocuments qy coll in
  let pages := Math_ceil_div total limit in
  Index.totalNotes (listing coll qy q) = total
  /\ Index.totalPages (listing coll qy q) = pages
  /\ Index.currentPage (listing coll qy q) = clamp pages (page_of q)
  /\ Index.notes (listing coll qy q)
     = page_slice (clamp pages (page_of q))
         (Mongo.sort (sortOptions_of (sort_of q)) (filter (Mongo.matches qy) coll)).
Proof. repeat split; reflexivity. Qed.

(** X2. A listing that renders reports a page from 1 on that is no later
    than the last page when there is one, a count that is not negative and
    is zero exactly when there is no page, and at most 5 notes. *)
Theorem listing_page_bounds (coll : list Note.t) (u : decoded) (q : Query.t)
    (v : Index.locals) :
  get_index coll (Some u) q = Some (Index.Render v) ->
  1 <= Index.currentPage v
  /\ (0 < Index.totalPages v -> Index.currentPage v <= Index.totalPages v)
  /\ 0 <= Index.totalNotes v
  /\ (Index.totalPages v = 0 <-> Index.totalNotes v = 0)
  /\ (List.length (Index.notes v) <= 5)%nat.
Proof.
  intros H. apply get_index_Render in H as (qy & _ & H1 & ->).
  split; [exact H1|].
  destruct (listing_fields coll qy q) as (E1 & E2 & E3 & E4).
  rewrite E3 in H1. rewrite E1, E2, E3, E4. clear E1 E2 E3 E4.
  pose proof (ceil_div_spec (Mongo.countDocuments qy coll)) as S.
  pose proof (countDocuments_nonneg qy coll) as N.
  rewrite page_slice_length.
  destruct (clamp_cases (Math_ceil_div (Mongo.countDocuments qy coll) limit) (page_of q))
    as [(C1 & C2 & C3)|(C1 & C3)]; rewrite C3 in *; lia.
Qed.

(** X3. The number of notes on a rendered page: 5 on every page before
    the last, and on the last page what is left of the count, at least one
    note. *)
Theorem listing_page_sizes (coll : list Note.t) (u : decoded) (q : Query.t)
    (v : Index.locals) :
  get_index coll (Some u) q = Some (Index.Render v) ->
  (Index.currentPage v < Index.totalPages v -> List.length (Index.notes v) = 5%nat)
  /\ (Index.currentPage v = Index.totalPages v ->
      Z.of_nat (List.length (Index.notes v))
      = Index.totalNotes v - 5 * (Index.totalPages v - 1)
      /\ (1 <= List.length (Index.notes v))%nat).
Proof.
  intros H. apply get_index_Render in H as (qy & _ & H1 & ->).
  destruct (listing_fields coll qy q) as (E1 & E2 & E3 & E4).
  rewrite E3 in H1. rewrite E1, E2, E3, E4. clear E1 E2 E3 E4.
  pose proof (ceil_div_spec (Mongo.countDocuments qy coll)) as S.
  rewrite page_slice_length, sort_length.
  unfold Mongo.countDocuments in *.
  set (total := List.length (filter (Mongo.matches qy) coll)) in *.
  set (pages := Math_ceil_div (Z.of_nat total) limit) in *.
  set (p := clamp pages (page_of q)) in *.
  split; intros Hp; [|rewrite Hp in *]; lia.
Qed.

Lemma firstn_add_skipn {A} (a b : nat) (l : list A) :
  firstn (a + b) l = (firstn a l ++ firstn b (skipn a l))%list.
Proof.
  revert l. induction a as [|a IH]; intros l; [reflexivity|].
  destruct l as [|x l]; simpl.
  - now rewrite firstn_nil.
  - now rewrite IH.
Qed.

Lemma concat_page_slices (k : nat) (l : list Note.t) :
  List.concat (map (fun p => page_slice (Z.of_nat p) l) (seq 1 k)) = firstn (5 * k) l.
Proof.
  induction k as [|k IH]; [reflexivity|].
  rewrite seq_S, map_app, concat_app, IH. cbn [map List.concat]. rewrite app_nil_r.
  unfold page_slice.
  replace (Z.to_nat ((Z.of_nat (1 + k) - 1) * 5)) with (5 * k)%nat by lia.
  replace (5 * S k)%nat with (5 * k + 5)%nat by lia.
  now rewrite firstn_add_skipn.
Qed.

(** The notes that the listing shows on page [p], one of the pages there
    are. *)
Lemma shown_page coll u sort search qy (p : nat) :
  query_of u (search_of (Query.mk None sort search)) = Some (Ok qy) ->
  (1 <= p)%nat ->
  Z.of_nat p <= Math_ceil_div (Mongo.countDocuments qy coll) limit ->
  shown (get_index coll (Some u) (Query.mk (Some (page_text p)) sort search))
  = page_slice (Z.of_nat p)
      (Mongo.sort (sortOptions_of (sort_of (Query.mk None sort search)))
                  (filter (Mongo.matches qy) coll)).
Proof.
  intros Q Hp Hle.
  pose proof (page_of_page_text p sort search Hp) as P.
  rewrite (get_index_renders coll u _ qy); [|exact Q | lia].
  unfold shown, listing. cbn [Index.notes]. rewrite P.
  destruct (clamp_cases (Math_ceil_div (Mongo.countDocuments qy coll) limit) (Z.of_nat p))
    as [(C1 & C2 & C3)|(C1 & C3)]; [lia|].
  now rewrite C3.
Qed.

(** ** Search and sort, seen from the listing *)

(** X5. For a search term without syntax characters of regular
    expressions, every note on a rendered page contains the trimmed term in
    its title or its content, whatever the case of the letters, and the
    count is the number of the owner's notes that do. *)
Theorem plain_search_shows_only_matches
    (coll : list Note.t) (u : decoded) (q : Query.t) (v : Index.locals) :
  plain (search_of q) = true ->
  search_of q <> "" ->
  get_index coll (Some u) q = Some (Index.Render v) ->
  (forall n, In n (Index.notes v) ->
     contains_ignoring_case (search_of q) (Note.title n)
     \/ contains_ignoring_case (search_of q) (Note.content n))
  /\ Index.totalNotes v
     = Z.of_nat (List.length
                   (filter (searched (userid (payload u)) (search_of q)) coll)).
Proof.
  intros Hplain Hne H.
  apply get_index_Render in H as (qy & Q & _ & ->).
  destruct (search_plain_term u _ Hplain) as (qy' & Q' & M).
  rewrite Q in Q'. injection Q' as <-.
  split.
  - intros n Hn. apply listing_In in Hn as [_ Hn].
    rewrite M in Hn. unfold searched in Hn.
    apply andb_prop in Hn as [_ Hn].
    assert (T : JS.truthy (search_of q) = true)
      by (destruct (search_of q); [contradiction | reflexivity]).
    rewrite T in Hn. cbn [negb orb] in Hn.
    apply orb_prop in Hn as [Hn|Hn]; apply includes_ignoring_case_spec in Hn; auto.
  - destruct (listing_fields coll qy q) as (E1 & _). rewrite E1.
    unfold Mongo.countDocuments. now rewrite (filter_ext _ _ M).
Qed.

Lemma plain_search_shows_only_matches_witness :
  let q := Query.mk None None (Some " LIST ") in
  plain (search_of q) = true
  /\ search_of q <> ""
  /\ (exists v, get_index [grocery] (Some alice) q = Some (Index.Render v)
                /\ Index.notes v = [grocery])
  /\ (contains_ignoring_case "LIST" (Note.title grocery)
      \/ contains_ignoring_case "LIST" (Note.content grocery)).
Proof.
  cbv zeta. split; [reflexivity|]. split; [discriminate|].
  split; [eexists; split; reflexivity|].
  refine (proj1 (plain_search_shows_only_matches [grocery] alice
                   (Query.mk None None (Some " LIST ")) _ eq_refl _ eq_refl)
                grocery _).
  - discriminate.
  - now left.
Defined.

Lemma filter_length_le {A} (f g : A -> bool) (l : list A) :
  (forall x, f x = true -> g x = true) ->
  (List.length (filter f l) <= List.length (filter g l))%nat.
Proof.
  intros H. induction l as [|x l IH]; simpl; [lia|].
  destruct (f x) eqn:F.
  - rewrite (H x F). simpl. lia.
  - destruct (g x); simpl; lia.
Qed.

(** X6. A search never widens the listing: when the listing for a search
    renders, so does the listing of the same request without the search,
    and it counts at least as many notes and pages. *)
Theorem search_never_widens
    (coll : list Note.t) (u : decoded) (page sort search : option string)
    (v : Index.locals) :
  get_index coll (Some u) (Query.mk page sort search) = Some (Index.Render v) ->
  exists v0,
    get_index coll (Some u) (Query.mk page sort None) = Some (Index.Render v0)
    /\ Index.totalNotes v <= Index.totalNotes v0
    /\ Index.totalPages v <= Index.totalPages v0.
Proof.
  intros H. apply get_index_Render in H as (qy & Q & H1 & ->).
  set (q := Query.mk page sort search) in *.
  set (q0 := Query.mk page sort None).
  set (qy0 := {| Mongo.user := userid (payload u); Mongo.or_title_content := None |}).
  assert (Hp : 1 <= page_of q0).
  { change (page_of q0) with (page_of q).
    destruct (listing_fields coll qy q) as (_ & _ & E3 & _). rewrite E3 in H1.
    pose proof (pages_nonneg qy coll).
    destruct (clamp_cases (Math_ceil_div (Mongo.countDocuments qy coll) limit)
                (page_of q)) as [(C1 & C2 & C3)|(C1 & C3)]; lia. }
  exists (listing coll qy0 q0).
  split; [apply get_index_renders; [apply query_of_no_search | exact Hp]|].
  assert (N : Mongo.countDocuments qy coll <= Mongo.countDocuments qy0 coll).
  { unfold Mongo.countDocuments. apply Nat2Z.inj_le, filter_length_le.
    intros n Hn. apply matches_user in Hn.
    rewrite (query_of_user _ _ _ Q) in Hn.
    unfold Mongo.matches, qy0. cbn [Mongo.user Mongo.or_title_content].
    rewrite Hn, N.eqb_refl. reflexivity. }
  destruct (listing_fields coll qy q) as (E1 & E2 & _).
  destruct (listing_fields coll qy0 q0) as (F1 & F2 & _).
  rewrite E1, E2, F1, F2. split; [exact N|].
  pose proof (ceil_div_spec (Mongo.countDocuments qy coll)).
  pose proof (ceil_div_spec (Mongo.countDocuments qy0 coll)).
  lia.
Qed.

Lemma search_never_widens_witness :
  exists v v0,
    get_index twelve_notes (Some alice) (Query.mk None None (Some "zzz"))
    = Some (Index.Render v)
    /\ get_index twelve_notes (Some alice) (Query.mk None None None)
       = Some (Index.Render v0)
    /\ Index.totalNotes v <= Index.totalNotes v0.
Proof.
  eexists.
  destruct (search_never_widens twelve_notes alice None None (Some "zzz") _ eq_refl)
    as (v0 & H0 & H1 & _).
  exists v0. split; [reflexivity|]. split; [exact H0 | exact H1].
Defined.

Lemma StronglySorted_snoc {A} (R : A -> A -> Prop) (l : list A) (x : A) :
  StronglySorted R l -> Forall (fun y => R y x) l -> StronglySorted R (l ++ [x]).
Proof.
  induction 1 as [|y l Hl IH Hy]; intros Hx; simpl.
  - repeat constructor.
  - inversion Hx as [|? ? Hyx Hlx]; subst.
    constructor; [now apply IH|].
    apply Forall_app. split; [exact Hy | now constructor].
Qed.

Lemma StronglySorted_rev {A} (R : A -> A -> Prop) (l : list A) :
  StronglySorted R l -> StronglySorted (fun a b => R b a) (rev l).
Proof.
  induction 1 as [|x l Hl IH Hx]; simpl; [constructor|].
  apply StronglySorted_snoc; [exact IH|].
  apply Forall_rev. exact Hx.
Qed.

(** Notes with distinct creation times: the ascending order is the
    descending order reversed. *)
Lemma sort_ascending_rev (l : list Note.t) :
  NoDup (map Note.createdAt l) ->
  Mongo.sort Mongo.Ascending l = rev (Mongo.sort Mongo.Descending l).
Proof.
  intros Hnd. apply (sorted_unique Mongo.Ascending).
  - eapply Permutation_NoDup; [|exact Hnd].
    apply Permutation_map. symmetry. apply sort_Permutation.
  - rewrite <- Permutation_rev, !sort_Permutation. reflexivity.
  - apply sort_sorted.
  - apply (StronglySorted_rev (ordered Mongo.Descending)), sort_sorted.
Qed.

(** X7. When the notes that a request matches fit on one page and the
    owner's notes have distinct creation times, the listing for the sort
    [oldest] shows the notes of the listing for [newest] in the reverse
    order. *)
Theorem oldest_is_newest_reversed
    (coll : list Note.t) (u : decoded) (search : option string)
    (vo vn : Index.locals) :
  NoDup (map Note.createdAt (filter (owned_by (userid (payload u))) coll)) ->
  get_index coll (Some u) (Query.mk None (Some "oldest") search)
  = Some (Index.Render vo) ->
  get_index coll (Some u) (Query.mk None (Some "newest") search)
  = Some (Index.Render vn) ->
  Index.totalNotes vo <= 5 ->
  Index.notes vo = rev (Index.notes vn).
Proof.
  intros Hnd Ho Hn H5.
  apply get_index_Render in Ho as (qy & Q & _ & ->).
  apply get_index_Render in Hn as (qy' & Q' & _ & ->).
  change (search_of (Query.mk None (Some "newest") search))
    with (search_of (Query.mk None (Some "oldest") search)) in Q'.
  rewrite Q in Q'. injection Q' as <-.
  destruct (listing_fields coll qy (Query.mk None (Some "oldest") search))
    as (E1 & _ & _ & E4).
  destruct (listing_fields coll qy (Query.mk None (Some "newest") search))
    as (_ & _ & _ & F4).
  rewrite E1 in H5. rewrite E4, F4. clear E1 E4 F4.
  change (page_of (Query.mk None (Some "oldest") search)) with 1.
  change (page_of (Query.mk None (Some "newest") search)) with 1.
  change (sortOptions_of (sort_of (Query.mk None (Some "oldest") search)))
    with Mongo.Ascending.
  change (sortOptions_of (sort_of (Query.mk None (Some "newest") search)))
    with Mongo.Descending.
  assert (C : clamp (Math_ceil_div (Mongo.countDocuments qy coll) limit) 1 = 1).
  { pose proof (ceil_div_spec (Mongo.countDocuments qy coll)).
    pose proof (pages_nonneg qy coll).
    destruct (clamp_cases (Math_ceil_div (Mongo.countDocuments qy coll) limit) 1)
      as [(C1 & C2 & C3)|(C1 & C3)]; lia. }
  rewrite C. unfold page_slice.
  change (Z.to_nat ((1 - 1) * 5)) with 0%nat. cbn [skipn].
  assert (L : forall o,
             (List.length (Mongo.sort o (filter (Mongo.matches qy) coll)) <= 5)%nat).
  { intros o. rewrite sort_length. unfold Mongo.countDocuments in H5. lia. }
  rewrite !firstn_all2 by apply L.
  apply sort_ascending_rev.
  rewrite <- (query_of_user _ _ _ Q) in Hnd.
  eapply NoDup_map_filter; [|exact Hnd].
  apply matches_owned.
Qed.

Lemma oldest_is_newest_reversed_witness :
  NoDup (map Note.createdAt (filter (owned_by 1%N) shared_store))
  /\ shown (get_index shared_store (Some alice) (Query.mk None (Some "oldest") None))
     = rev (shown (get_index shared_store (Some alice)
                     (Query.mk None (Some "newest") None))).
Proof.
  assert (Hnd : NoDup (map Note.createdAt (filter (owned_by 1%N) shared_store))).
  { simpl. repeat constructor; simpl; intuition discriminate. }
  split; [exact Hnd|].
  refine (oldest_is_newest_reversed shared_store alice None _ _ Hnd eq_refl eq_refl _).
  vm_compute. discriminate.
Defined.

Lemma listing_page_bounds_witness :
  exists v,
    get_index twelve_notes (Some alice) (Query.mk (Some "9") None None)
    = Some (Index.Render v)
    /\ 1 <= Index.currentPage v <= Index.totalPages v
    /\ (List.length (Index.notes v) <= 5)%nat.
Proof.
  eexists. split; [reflexivity|].
  destruct (listing_page_bounds twelve_notes alice (Query.mk (Some "9") None None)
              _ eq_refl) as (H1 & H2 & _ & _ & H5).
  split; [split; [exact H1 | apply H2; reflexivity] | exact H5].
Defined.

Lemma listing_page_sizes_witness :
  exists v,
    get_index twelve_notes (Some alice) (Query.mk (Some "2") None None)
    = Some (Index.Render v)
    /\ Index.currentPage v < Index.totalPages v
    /\ List.length (Index.notes v) = 5%nat.
Proof.
  eexists. split; [reflexivity|]. split; [reflexivity|].
  apply (proj1 (listing_page_sizes twelve_notes alice (Query.mk (Some "2") None None)
                  _ eq_refl)).
  reflexivity.
Defined.

(** ** Identity of a request *)

Section Identity.

Context (L : Libraries).

Lemma isLoggedIn_Next_iff e (c : cookie L) :
  isLoggedIn L e c = Next <-> exists u, token_middleware L e c = Some u.
Proof.
  unfold isLoggedIn, token_middleware. destruct c as [token|].
  - destruct (jwt_verify L token (secret_of e)) as [d|err]; simpl.
    + split; [intros _; now exists d | reflexivity].
    + split; [discriminate | intros [u H]; discriminate].
  - split; [discriminate | intros [u H]; discriminate].
Qed.

Lemma isLoggedIn_Rejected e (c : cookie L) r :
  isLoggedIn L e c = Rejected r ->
  token_middleware L e c = None /\ flash_type r = "error" /\ location r = "/login".
Proof.
  unfold isLoggedIn, token_middleware. destruct c as [token|].
  - destruct (jwt_verify L token (secret_of e)); simpl; [discriminate|].
    intros H. injection H as <-. auto.
  - intros H. injection H as <-. auto.
Qed.

Lemma isLoggedIn_of_no_identity e (c : cookie L) :
  token_middleware L e c = None ->
  exists r, isLoggedIn L e c = Rejected r
            /\ flash_type r = "error" /\ location r = "/login".
Proof.
  intros H. destruct (isLoggedIn L e c) as [|r] eqn:E.
  - apply isLoggedIn_Next_iff in E as [u E]. congruence.
  - exists r. split; [reflexivity|]. now apply (isLoggedIn_Rejected e c).
Qed.

(** X8. The guard [isLoggedIn] lets a request pass exactly when the token
    middleware found an identity for it, so a handler behind the guard
    always has [res.locals.user]; a request that it stops is sent to
    [/login] with an error. *)
Theorem isLoggedIn_agrees_with_middleware e (c : cookie L) :
  (isLoggedIn L e c = Next <-> token_middleware L e c <> None)
  /\ (forall r, isLoggedIn L e c = Rejected r ->
        token_middleware L e c = None
        /\ flash_type r = "error" /\ location r = "/login").
Proof.
  split.
  - rewrite isLoggedIn_Next_iff. split.
    + intros [u ->]. discriminate.
    + destruct (token_middleware L e c) as [u|]; [now exists u | contradiction].
  - apply isLoggedIn_Rejected.
Qed.

(** X9. A request without identity (no cookie, the cookie that
    [GET /logout] leaves, or a token that the verifier refuses) changes no
    note: creating and deleting send it to [/login] and leave the store as
    it is, showing a note sends it to [/login], and the listing shows
    nothing. *)
Theorem no_identity_no_change e (c : cookie L) :
  token_middleware L e c = None ->
  (forall now fresh title content file coll,
     snd (post_notes L e c now fresh title content file coll) = coll
     /\ location (fst (post_notes L e c now fresh title content file coll)) = "/login")
  /\ (forall id coll,
        snd (post_delete L e c id coll) = coll
        /\ location (fst (post_delete L e c id coll)) = "/login")
  /\ (forall id coll,
        exists r, get_note (token_middleware L e c) id coll = RedirectShow r
                  /\ location r = "/login")
  /\ (forall coll q, shown (get_index_request L e c coll q) = []).
Proof.
  intros H.
  destruct (isLoggedIn_of_no_identity e c H) as (r & E & _ & Hr).
  split; [|split; [|split]].
  - intros. unfold post_notes. rewrite E. auto.
  - intros. unfold post_delete. rewrite E. auto.
  - intros. rewrite H. eexists. split; reflexivity.
  - intros. unfold get_index_request. rewrite H. reflexivity.
Qed.

(** X10. [POST /login] sets a cookie only for valid credentials: when it
    does, a user has the email, a password was sent and it matches the hash
    of that user, the token is the one signed for the email and the id of
    that user, and the request is sent to [/] with a success. *)
Theorem login_cookie_only_for_valid_credentials
    e now (users : list User.t) (mail : string) (password : option string)
    (r : redirect) (token : Token L) :
  post_login L e now users mail password = (r, Some token) ->
  exists user pw,
    Mongo.findOne_email mail users = Some user
    /\ password = Some pw
    /\ bcrypt_compare L pw (User.password user) = true
    /\ token = jwt_sign L {| email := User.email user; userid := User._id user |}
                        (secret_of e) now
    /\ User.email user = mail
    /\ flash_type r = "success" /\ location r = "/".
Proof.
  unfold post_login.
  destruct (Mongo.findOne_email mail users) as [user|] eqn:F; simpl; [|discriminate].
  destruct password as [pw|]; simpl; [|discriminate].
  destruct (bcrypt_compare L pw (User.password user)) eqn:C; simpl; [|discriminate].
  intros H. injection H as <- <-.
  exists user, pw. repeat split; auto.
  unfold Mongo.findOne_email in F. apply find_some in F as [_ F].
  now apply String.eqb_eq in F.
Qed.

End Identity.

Lemma no_identity_no_change_witness :
  let e := {| JWT_SECRET := None |} in
  let forged : cookie plain_libraries := Some (payload alice, "guessed", 0) in
  token_middleware plain_libraries e forged = None
  /\ snd (post_delete plain_libraries e forged (IdText 1%N) shared_store) = shared_store
  /\ snd (post_delete plain_libraries e (snd (get_logout plain_libraries))
            (IdText 1%N) shared_store) = shared_store.
Proof.
  cbv zeta. split; [reflexivity|]. split.
  - exact (proj1 (proj1 (proj2 (no_identity_no_change plain_libraries
                                   {| JWT_SECRET := None |}
                                   (Some (payload alice, "guessed", 0)) eq_refl))
                        (IdText 1%N) shared_store)).
  - exact (proj1 (proj1 (proj2 (no_identity_no_change plain_libraries
                                   {| JWT_SECRET := None |}
                                   (snd (get_logout plain_libraries)) eq_refl))
                        (IdText 1%N) shared_store)).
Defined.

Lemma login_cookie_only_for_valid_credentials_witness :
  let e := {| JWT_SECRET := None |} in
  exists r token user pw,
    post_login plain_libraries e 5 sample_users "bob@example.org" (Some "builder")
    = (r, Some token)
    /\ Mongo.findOne_email "bob@example.org" sample_users = Some user
    /\ Some "builder" = Some pw
    /\ bcrypt_compare plain_libraries pw (User.password user) = true.
Proof.
  cbv zeta. eexists. eexists.
  destruct (login_cookie_only_for_valid_credentials plain_libraries
              {| JWT_SECRET := None |} 5 sample_users "bob@example.org"
              (Some "builder") _ _ eq_refl) as (user & pw & H1 & H2 & H3 & _).
  exists user, pw. split; [reflexivity|]. auto.
Defined.

(** ** Showing, creating and deleting notes *)

(** What [findOneAndDelete] returns, by the place of the note removed. *)
Lemma findOneAndDelete_cases id u coll :
  (Mongo.findOneAndDelete id u coll = (None, coll)
   /\ forall n, In n coll -> ~ (Note._id n = id /\ Note.user n = u))
  \/ (exists n pre post,
        Mongo.findOneAndDelete id u coll = (Some n, pre ++ post)%list
        /\ coll = (pre ++ n :: post)%list
        /\ Note._id n = id /\ Note.user n = u).
Proof.
  induction coll as [|x coll IH]; simpl.
  - left. split; [reflexivity | intros n []].
  - destruct (N.eqb (Note._id x) id && N.eqb (Note.user x) u) eqn:E.
    + right. apply andb_prop in E as [E1 E2]. apply N.eqb_eq in E1, E2.
      exists x, [], coll. auto.
    + destruct IH as [[-> H]|(n & pre & post & -> & Hc & Hid & Hu)].
      * left. split; [reflexivity|].
        intros n [<-|Hn]; [|now apply H].
        intros [H1 H2]. rewrite <- H1, <- H2, !N.eqb_refl in E. discriminate.
      * right. exists n, (x :: pre), post. rewrite Hc. auto.
Qed.

(** The listing of an identity depends on the store through the notes of
    that identity only. *)
Lemma get_index_same_owned (coll coll' : list Note.t) (u : decoded) (q : Query.t) :
  filter (owned_by (userid (payload u))) coll
  = filter (owned_by (userid (payload u))) coll' ->
  get_index coll (Some u) q = get_index coll' (Some u) q.
Proof.
  intros H. unfold get_index.
  destruct (query_of u (search_of q)) as [[qy|err]|] eqn:Q; try reflexivity.
  assert (E : filter (Mongo.matches qy) coll = filter (Mongo.matches qy) coll').
  { pose proof (query_of_user _ _ _ Q) as Hu.
    assert (S : forall l, filter (Mongo.matches qy) l
                          = filter (Mongo.matches qy)
                                   (filter (owned_by (userid (payload u))) l)).
    { intros l. induction l as [|n l IH]; [reflexivity|]. simpl.
      destruct (owned_by (userid (payload u)) n) eqn:O; simpl.
      - destruct (Mongo.matches qy n); now rewrite IH.
      - destruct (Mongo.matches qy n) eqn:M; [|exact IH].
        apply matches_owned in M. rewrite Hu in M. congruence. }
    rewrite (S coll), (S coll'), H. reflexivity. }
  simpl. unfold Mongo.find_sort_skip_limit, Mongo.countDocuments. now rewrite E.
Qed.

Lemma Note_findOne_Some id u coll n :
  Note_findOne id u coll = Some n ->
  In n coll /\ Note._id n = id /\ Note.user n = u.
Proof.
  unfold Note_findOne. intros H. apply find_some in H as [Hin H].
  apply andb_prop in H as [H1 H2]. apply N.eqb_eq in H1, H2. auto.
Qed.

Lemma Note_findOne_None id u coll :
  Note_findOne id u coll = None ->
  forall n, In n coll -> ~ (Note._id n = id /\ Note.user n = u).
Proof.
  unfold Note_findOne. intros H n Hn [H1 H2].
  pose proof (find_none _ _ H n Hn) as F. cbv beta in F.
  rewrite H1, H2, !N.eqb_refl in F. discriminate.
Qed.

(** X11. [GET /notes/:id] renders a note only if it is in the store, has
    the id asked for and belongs to the identity of the request. *)
Theorem get_note_owner_scoped (u : decoded) (id : id_param) (coll : list Note.t)
    (n : Note.t) :
  get_note (Some u) id coll = RenderShow n ->
  In n coll /\ id = IdText (Note._id n) /\ Note.user n = userid (payload u).
Proof.
  unfold get_note. destruct id as [oid|s]; simpl; [|discriminate].
  destruct (Note_findOne oid (userid (payload u)) coll) as [m|] eqn:F; simpl;
    [|discriminate].
  intros H. injection H as <-.
  apply Note_findOne_Some in F as (H1 & H2 & H3). now subst.
Qed.

(** X12. For a store with distinct ids, [GET /notes/:id] with the id of a
    note of another owner answers as for an id that no note has: the same
    redirect to [/], with the same message. *)
Theorem get_note_hides_foreign_note (u : decoded) (n : Note.t) (coll : list Note.t) :
  NoDup (map Note._id coll) ->
  In n coll ->
  Note.user n <> userid (payload u) ->
  get_note (Some u) (IdText (Note._id n)) coll
  = RedirectShow {| flash_type := "error";
                    flash_message := "Note not found or unauthorized";
                    location := "/" |}
  /\ forall missing, ~ In missing (map Note._id coll) ->
       get_note (Some u) (IdText missing) coll
       = get_note (Some u) (IdText (Note._id n)) coll.
Proof.
  intros Hnd Hn Hown.
  assert (A : forall id,
             (forall m, In m coll -> Note._id m = id -> Note.user m <> userid (payload u)) ->
             get_note (Some u) (IdText id) coll
             = RedirectShow {| flash_type := "error";
                               flash_message := "Note not found or unauthorized";
                               location := "/" |}).
  { intros id H. unfold get_note. simpl.
    destruct (Note_findOne id (userid (payload u)) coll) as [m|] eqn:F; [|reflexivity].
    apply Note_findOne_Some in F as (H1 & H2 & H3). now destruct (H m H1 H2). }
  pose proof (A (Note._id n)) as B.
  rewrite B.
  2:{ intros m Hm Hid.
      now rewrite (NoDup_map_injective Note._id coll m n Hnd Hm Hn Hid). }
  split; [reflexivity|].
  intros missing Hmiss. apply A.
  intros m Hm Hid. exfalso. apply Hmiss. rewrite <- Hid. now apply in_map.
Qed.

Lemma get_note_owner_scoped_witness :
  get_note (Some alice) (IdText 2%N) shared_store = RenderShow (note_at 2 1 "b" 20)
  /\ In (note_at 2 1 "b" 20) shared_store
  /\ Note.user (note_at 2 1 "b" 20) = userid (payload alice).
Proof.
  split; [reflexivity|].
  destruct (get_note_owner_scoped alice (IdText 2%N) shared_store _ eq_refl)
    as (H1 & _ & H3).
  split; [exact H1 | exact H3].
Defined.

Lemma get_note_hides_foreign_note_witness :
  NoDup (map Note._id shared_store)
  /\ In (note_at 99 2 "other" 50) shared_store
  /\ Note.user (note_at 99 2 "other" 50) <> userid (payload alice)
  /\ get_note (Some alice) (IdText 4321%N) shared_store
     = get_note (Some alice) (IdText 99%N) shared_store.
Proof.
  assert (Hnd : NoDup (map Note._id shared_store)).
  { simpl. repeat constructor; simpl; intuition discriminate. }
  assert (Hin : In (note_at 99 2 "other" 50) shared_store) by (simpl; tauto).
  assert (Hown : Note.user (note_at 99 2 "other" 50) <> userid (payload alice))
    by (simpl; discriminate).
  split; [exact Hnd|]. split; [exact Hin|]. split; [exact Hown|].
  apply (proj2 (get_note_hides_foreign_note alice _ shared_store Hnd Hin Hown)).
  simpl. intuition discriminate.
Defined.

Lemma truthy_string_or (t : string) : t <> "" -> JS.string_or (Some t) "" = t.
Proof. destruct t; [contradiction | reflexivity]. Qed.

Lemma truthy_nonempty (t : string) : t <> "" -> JS.truthy t = true.
Proof. destruct t; [contradiction | reflexivity]. Qed.

Lemma find_snoc {A} (f : A -> bool) (l : list A) (x : A) :
  (forall y, In y l -> f y = false) -> f x = true -> find f (l ++ [x]) = Some x.
Proof.
  intros Hl Hx. induction l as [|y l IH]; simpl.
  - now rewrite Hx.
  - rewrite (Hl y) by now left. apply IH. intros z Hz. apply Hl. now right.
Qed.

Lemma findOneAndDelete_snoc id u (l : list Note.t) (x : Note.t) :
  (forall m, In m l -> ~ (Note._id m = id /\ Note.user m = u)) ->
  Note._id x = id -> Note.user x = u ->
  Mongo.findOneAndDelete id u (l ++ [x]) = (Some x, l).
Proof.
  intros Hl Hid Hu. induction l as [|y l IH]; simpl.
  - now rewrite Hid, Hu, !N.eqb_refl.
  - destruct (N.eqb (Note._id y) id && N.eqb (Note.user y) u) eqn:E.
    + apply andb_prop in E as [E1 E2]. apply N.eqb_eq in E1, E2.
      exfalso. apply (Hl y); [now left | auto].
    + rewrite IH; [reflexivity|]. intros m Hm. apply Hl. now right.
Qed.

(** Sorting newest first with a note at the end of the scan that is newer
    than all the others: it comes first. *)
Lemma sort_descending_snoc (l : list Note.t) (x : Note.t) :
  Forall (fun y => Note.createdAt y < Note.createdAt x) l ->
  Mongo.sort Mongo.Descending (l ++ [x]) = x :: Mongo.sort Mongo.Descending l.
Proof.
  induction 1 as [|y l Hy Hl IH]; [reflexivity|].
  simpl. rewrite IH. simpl.
  destruct (Z.leb_spec (Note.createdAt x) (Note.createdAt y)); [lia | reflexivity].
Qed.

Section NoteOperations.

Context (L : Libraries).

(** The two outcomes of [POST /notes] for a request with an identity. *)
Lemma post_notes_cases e (c : cookie L) u now fresh title content file coll :
  token_middleware L e c = Some u ->
  post_notes L e c now fresh title content file coll
  = if negb (JS.truthy (JS.string_or title ""))
       || negb (JS.truthy (JS.string_or content ""))
    then ({| flash_type := "error";
             flash_message := "Title and content are required";
             location := "/" |}, coll)
    else ({| flash_type := "success";
             flash_message := "Note created successfully";
             location := "/" |},
          (coll ++ [Note.mk fresh (JS.string_or title "") (JS.string_or content "")
                            file (userid (payload u)) now])%list).
Proof.
  intros Hu. unfold post_notes.
  rewrite (isLoggedIn_of_identity L _ _ _ Hu), Hu.
  now destruct (_ || _).
Qed.

Lemma post_notes_success e (c : cookie L) u now fresh (t ct : string) file coll :
  token_middleware L e c = Some u ->
  t <> "" -> ct <> "" ->
  post_notes L e c now fresh (Some t) (Some ct) file coll
  = ({| flash_type := "success"; flash_message := "Note created successfully";
        location := "/" |},
     (coll ++ [Note.mk fresh t ct file (userid (payload u)) now])%list).
Proof.
  intros Hu Ht Hc. rewrite (post_notes_cases _ _ _ _ _ _ _ _ _ Hu).
  rewrite !truthy_string_or, !truthy_nonempty by assumption. reflexivity.
Qed.

(** X13. For a request with an identity, [POST /notes] adds a note exactly
    when a title and a content are sent and neither is empty: then one note
    is added after the others, with the title, the content and the media
    sent, owned by the identity; otherwise nothing is added. *)
Theorem post_notes_adds_iff_title_and_content
    e (c : cookie L) u now fresh (title content file : option string)
    (coll : list Note.t) :
  token_middleware L e c = Some u ->
  (forall t ct, title = Some t -> content = Some ct -> t <> "" -> ct <> "" ->
     post_notes L e c now fresh title content file coll
     = ({| flash_type := "success"; flash_message := "Note created successfully";
           location := "/" |},
        (coll ++ [Note.mk fresh t ct file (userid (payload u)) now])%list))
  /\ ((title = None \/ title = Some "" \/ content = None \/ content = Some "") ->
      post_notes L e c now fresh title content file coll
      = ({| flash_type := "error"; flash_message := "Title and content are required";
            location := "/" |}, coll)).
Proof.
  intros Hu. rewrite (post_notes_cases _ _ _ _ _ _ _ _ _ Hu). split.
  - intros t ct -> -> Ht Hc.
    rewrite !truthy_string_or, !truthy_nonempty by assumption. reflexivity.
  - intros [ -> | [ -> | [ -> | -> ] ] ]; cbn [JS.string_or JS.truthy negb orb];
      try reflexivity; now destruct (JS.truthy _).
Qed.

(** X14. A note just created can be shown: when no note of the store has
    the id given to the new note, [GET /notes/:id] for this id and the same
    identity renders the note that [POST /notes] added. *)
Theorem created_note_can_be_shown
    e (c : cookie L) u now fresh (t ct : string) (file : option string)
    (coll : list Note.t) :
  token_middleware L e c = Some u ->
  t <> "" -> ct <> "" ->
  ~ In fresh (map Note._id coll) ->
  get_note (Some u) (IdText fresh)
           (snd (post_notes L e c now fresh (Some t) (Some ct) file coll))
  = RenderShow (Note.mk fresh t ct file (userid (payload u)) now).
Proof.
  intros Hu Ht Hc Hfresh.
  rewrite (post_notes_success e c u now fresh t ct file coll Hu Ht Hc).
  cbn [snd]. unfold get_note. simpl. unfold Note_findOne.
  rewrite find_snoc; [reflexivity | |].
  - intros m Hm. cbv beta.
    destruct (N.eqb_spec (Note._id m) fresh) as [E|E]; [|reflexivity].
    exfalso. apply Hfresh. rewrite <- E. now apply in_map.
  - cbn. now rewrite !N.eqb_refl.
Qed.

End NoteOperations.

Section NoteComposition.

Context (L : Libraries).

Lemma clamp_first_page pages : 0 <= pages -> clamp pages 1 = 1.
Proof.
  intros H. destruct (clamp_cases pages 1) as [(C1 & C2 & C3)|(C1 & C3)]; lia.
Qed.

(** X15. A note just created heads the listing: when its creation time is
    later than that of every note of the owner, the first page of the
    listing, newest first and without search, shows the new note and then
    the four newest of the notes before. *)
Theorem created_note_heads_newest_listing
    e (c : cookie L) u now fresh (t ct : string) (file : option string)
    (coll : list Note.t) :
  token_middleware L e c = Some u ->
  t <> "" -> ct <> "" ->
  (forall m, In m coll -> Note.user m = userid (payload u) -> Note.createdAt m < now) ->
  shown (get_index (snd (post_notes L e c now fresh (Some t) (Some ct) file coll))
                   (Some u) (Query.mk None None None))
  = Note.mk fresh t ct file (userid (payload u)) now
    :: firstn 4 (Mongo.sort Mongo.Descending
                            (filter (owned_by (userid (payload u))) coll)).
Proof.
  intros Hu Ht Hc Hnew.
  rewrite (post_notes_success L e c u now fresh t ct file coll Hu Ht Hc). cbn [snd].
  set (new := Note.mk fresh t ct file (userid (payload u)) now).
  set (q := Query.mk None None None).
  set (qy := {| Mongo.user := userid (payload u); Mongo.or_title_content := None |}).
  rewrite (get_index_renders _ u q qy); [|apply query_of_no_search | reflexivity].
  unfold shown.
  destruct (listing_fields (coll ++ [new]) qy q) as (_ & _ & _ & E). rewrite E. clear E.
  change (page_of q) with 1. rewrite clamp_first_page by apply pages_nonneg.
  change (sortOptions_of (sort_of q)) with Mongo.Descending.
  unfold qy. rewrite filter_no_search, filter_app. cbn [filter].
  replace (owned_by (userid (payload u)) new) with true
    by (unfold owned_by, new; cbn; now rewrite N.eqb_refl).
  rewrite sort_descending_snoc.
  - reflexivity.
  - apply Forall_forall. intros m Hm. apply filter_In in Hm as [Hm Ho].
    apply N.eqb_eq in Ho. now apply Hnew.
Qed.

(** X16. Deleting the same id twice: for a store with distinct ids,
    whatever the first delete did, the second one finds no note and
    leaves the store as the first one left it. *)
Theorem delete_twice e (c : cookie L) u (id : ObjectId) (coll : list Note.t) :
  token_middleware L e c = Some u ->
  NoDup (map Note._id coll) ->
  let coll1 := snd (post_delete L e c (IdText id) coll) in
  post_delete L e c (IdText id) coll1 = (NotFound, coll1).
Proof.
  intros Hu Hnd coll1.
  apply (post_delete_not_found L e c u); [exact Hu|].
  intros m Hm Hid. unfold coll1 in Hm. unfold post_delete in Hm.
  rewrite (isLoggedIn_of_identity L _ _ _ Hu), Hu in Hm. simpl in Hm.
  destruct (findOneAndDelete_cases id (userid (payload u)) coll)
    as [[E H]|(n & pre & post & E & Hc & Hn1 & Hn2)]; rewrite E in Hm; simpl in Hm.
  - intros Hown. now apply (H m Hm).
  - exfalso. subst coll.
    assert (Hmn : m = n).
    { apply (NoDup_map_injective Note._id (pre ++ n :: post)); auto.
      - apply in_app_or in Hm as [Hm|Hm]; apply in_or_app; [now left|right; now right].
      - apply in_or_app. right. now left.
      - congruence. }
    subst m. apply NoDup_map_inv in Hnd. now apply NoDup_remove_2 in Hnd.
Qed.

(** X17. Creating a note and deleting it again gives back the store: when
    no note of the identity has the id given to the new note, the delete
    succeeds and the notes are the ones before the creation, in their
    order. *)
Theorem create_then_delete_restores
    e (c : cookie L) u now fresh (t ct : string) (file : option string)
    (coll : list Note.t) :
  token_middleware L e c = Some u ->
  t <> "" -> ct <> "" ->
  (forall m, In m coll -> ~ (Note._id m = fresh /\ Note.user m = userid (payload u))) ->
  post_delete L e c (IdText fresh)
              (snd (post_notes L e c now fresh (Some t) (Some ct) file coll))
  = ({| flash_type := "success"; flash_message := "Note deleted"; location := "/" |},
     coll).
Proof.
  intros Hu Ht Hc Hfresh.
  rewrite (post_notes_success L e c u now fresh t ct file coll Hu Ht Hc). cbn [snd].
  unfold post_delete.
  rewrite (isLoggedIn_of_identity L _ _ _ Hu), Hu. simpl.
  now rewrite findOneAndDelete_snoc.
Qed.

Lemma filter_remove_unmatched {A} (f : A -> bool) (pre post : list A) (x : A) :
  f x = false -> filter f (pre ++ x :: post) = filter f (pre ++ post).
Proof. intros H. rewrite !filter_app. simpl. now rewrite H. Qed.

(** X18. What one identity creates or deletes changes the listing of no
    other identity: for every request to [POST /notes] or
    [POST /delete/:id], every listing of another identity is the same
    before and after. *)
Theorem others_listing_unchanged e (c : cookie L) (a b : decoded) :
  token_middleware L e c = Some a ->
  userid (payload b) <> userid (payload a) ->
  (forall now fresh title content file coll q,
     get_index (snd (post_notes L e c now fresh title content file coll)) (Some b) q
     = get_index coll (Some b) q)
  /\ (forall id coll q,
        get_index (snd (post_delete L e c id coll)) (Some b) q
        = get_index coll (Some b) q).
Proof.
  intros Ha Hab.
  assert (O : forall n, Note.user n = userid (payload a) ->
                        owned_by (userid (payload b)) n = false).
  { intros n Hn. unfold owned_by. apply N.eqb_neq. congruence. }
  split.
  - intros. apply get_index_same_owned.
    rewrite (post_notes_cases L _ _ _ _ _ _ _ _ _ Ha).
    destruct (_ || _); cbn [snd]; [reflexivity|].
    rewrite filter_app. cbn [filter]. rewrite O by reflexivity. apply app_nil_r.
  - intros id coll q. apply get_index_same_owned.
    unfold post_delete. rewrite (isLoggedIn_of_identity L _ _ _ Ha), Ha.
    destruct id as [oid|s]; simpl; [|reflexivity].
    destruct (findOneAndDelete_cases oid (userid (payload a)) coll)
      as [[E H]|(n & pre & post & E & Hc & Hn1 & Hn2)]; rewrite E; simpl.
    + reflexivity.
    + subst coll. symmetry. apply filter_remove_unmatched. now apply O.
Qed.

(** X19. Deleting a note of one's own, in a store with distinct ids:
    the delete succeeds, the store loses this note and no other, the note
    can no longer be shown and no listing of the owner shows it. *)
Theorem deleted_note_is_gone e (c : cookie L) u (n : Note.t) (coll : list Note.t) :
  token_middleware L e c = Some u ->
  NoDup (map Note._id coll) ->
  In n coll ->
  Note.user n = userid (payload u) ->
  exists rest,
    post_delete L e c (IdText (Note._id n)) coll
    = ({| flash_type := "success"; flash_message := "Note deleted"; location := "/" |},
       rest)
    /\ (forall m, In m rest <-> In m coll /\ m <> n)
    /\ get_note (Some u) (IdText (Note._id n)) rest
       = RedirectShow {| flash_type := "error";
                         flash_message := "Note not found or unauthorized";
                         location := "/" |}
    /\ (forall q v, get_index rest (Some u) q = Some (Index.Render v) ->
                    ~ In n (Index.notes v)).
Proof.
  intros Hu Hnd Hn Hown.
  destruct (post_delete_own_note L e c u n coll Hu Hnd Hn Hown) as (rest & E & Hrest).
  exists rest. split; [exact E|]. split; [exact Hrest|]. split.
  - unfold get_note. simpl.
    destruct (Note_findOne (Note._id n) (userid (payload u)) rest) as [m|] eqn:F;
      [|reflexivity].
    apply Note_findOne_Some in F as (H1 & H2 & _).
    apply Hrest in H1 as [H1 Hne]. exfalso. apply Hne.
    apply (NoDup_map_injective Note._id coll); auto.
  - intros q v Hv Hin.
    apply get_index_Render in Hv as (qy & _ & _ & ->).
    apply listing_In in Hin as [Hin _].
    apply Hrest in Hin as [_ Hne]. now apply Hne.
Qed.

End NoteComposition.

(** ** Registration *)

Lemma findOne_email_None mail users :
  Mongo.findOne_email mail users = None ->
  forall x, In x users -> User.email x <> mail.
Proof.
  unfold Mongo.findOne_email. intros H x Hx E.
  pose proof (find_none _ _ H x Hx) as F. cbv beta in F.
  rewrite E, String.eqb_refl in F. discriminate.
Qed.

Lemma findOne_email_snoc mail users x :
  Mongo.findOne_email mail users = None -> User.email x = mail ->
  Mongo.findOne_email mail (users ++ [x]) = Some x.
Proof.
  intros H E. unfold Mongo.findOne_email. apply find_snoc.
  - intros y Hy. apply String.eqb_neq. now apply (findOne_email_None mail users).
  - now apply String.eqb_eq.
Qed.

Lemma NoDup_snoc {A} (l : list A) (x : A) :
  NoDup l -> ~ In x l -> NoDup (l ++ [x]).
Proof.
  intros Hl Hx. apply NoDup_rev in Hl.
  rewrite <- (rev_involutive (l ++ [x])), rev_app_distr. apply NoDup_rev.
  simpl. constructor; [|exact Hl]. intros H. now apply in_rev in H.
Qed.

Lemma existsb_false_forall {A} (f : A -> bool) (l : list A) :
  existsb f l = false -> forall x, In x l -> f x = false.
Proof.
  intros H x Hx. destruct (f x) eqn:E; [|reflexivity].
  assert (existsb f l = true) by (apply existsb_exists; now exists x). congruence.
Qed.

(** The paths are all valid exactly when a name, an email, a password and
    an age are there and the three texts are not empty. *)
Lemma invalid_paths_nil username mail password age :
  invalid_paths username mail password age = [] ->
  exists name a,
    username = Some name /\ name <> "" /\ mail <> "" /\ password <> ""
    /\ age = Some a.
Proof.
  unfold invalid_paths.
  destruct username as [[|ch name]|]; cbn [JS.string_or JS.truthy]; try discriminate.
  destruct mail as [|ch1 mail]; cbn [JS.truthy]; try discriminate.
  destruct password as [|ch2 password]; cbn [JS.truthy]; try discriminate.
  destruct age as [a|]; try discriminate.
  intros _. exists (String ch name), a. repeat split; discriminate.
Qed.

Lemma User_create_Ok R fresh users username mail password age user :
  User_create R fresh users username mail password age = Ok user ->
  exists name a,
    username = Some name /\ name <> "" /\ mail <> "" /\ password <> ""
    /\ age = Some a
    /\ (forall x, In x users -> User.username x <> name)
    /\ user = User.mk fresh name mail password a [].
Proof.
  unfold User_create.
  destruct (invalid_paths username mail password age) as [|p ps] eqn:V;
    [|destruct age; discriminate].
  destruct (invalid_paths_nil _ _ _ _ V) as (name & a & -> & Hn & Hm & Hp & ->).
  rewrite (truthy_string_or name Hn).
  destruct (existsb _ users) eqn:E1; [discriminate|].
  destruct (existsb (fun u => String.eqb (User.email u) mail) users) eqn:E2;
    [discriminate|].
  intros H. injection H as <-.
  exists name, a. repeat split; auto.
  intros x Hx. apply String.eqb_neq.
  exact (existsb_false_forall _ _ E1 x Hx).
Qed.

Section Register.

Context (L : Libraries) (R : Registration).

(** What a registration that sets a cookie has done. *)
Lemma post_register_cookie e now fresh salt users username mail password age r token users' :
  post_register L R e now fresh salt users username mail password age
  = (r, Some token, users') ->
  exists name pw a,
    username = Some name /\ name <> "" /\ mail <> "" /\ password = Some pw
    /\ age = Some a
    /\ Mongo.findOne_email mail users = None
    /\ (forall x, In x users -> User.username x <> name)
    /\ users' = (users ++ [User.mk fresh name mail (bcrypt_hash R pw 10 salt) a []])%list
    /\ token = jwt_sign L {| email := mail; userid := fresh |} (secret_of e) now
    /\ flash_type r = "success" /\ location r = "/".
Proof.
  unfold post_register.
  destruct (Mongo.findOne_email mail users) as [x|] eqn:F; simpl; [discriminate|].
  destruct password as [pw|]; simpl; [|discriminate].
  destruct (User_create R fresh users username mail (bcrypt_hash R pw 10 salt) age)
    as [user|err] eqn:C; simpl; [|discriminate].
  apply User_create_Ok in C as (name & a & -> & Hn & Hm & _ & -> & Hname & ->).
  intros H. injection H as <- <- <-.
  exists name, pw, a. repeat split; auto.
Qed.

(** What a registration that sets no cookie has done: nothing. *)
Lemma post_register_no_cookie e now fresh salt users username mail password age r users' :
  post_register L R e now fresh salt users username mail password age
  = (r, None, users') ->
  users' = users /\ flash_type r = "error" /\ location r = "/register".
Proof.
  unfold post_register.
  destruct (Mongo.findOne_email mail users) as [x|] eqn:F; simpl.
  { intros H. injection H as <- <-. auto. }
  destruct password as [pw|]; simpl.
  2:{ intros H. injection H as <- <-. auto. }
  destruct (User_create R fresh users username mail (bcrypt_hash R pw 10 salt) age)
    as [user|err] eqn:C; simpl; [discriminate|].
  intros H. injection H as <- <-. auto.
Qed.

Lemma existsb_false_of_forall {A} (f : A -> bool) (l : list A) :
  (forall x, In x l -> f x = false) -> existsb f l = false.
Proof.
  intros H. destruct (existsb f l) eqn:E; [|reflexivity].
  apply existsb_exists in E as (x & Hx & Fx). rewrite (H x Hx) in Fx. discriminate.
Qed.

(** A registration whose fields are valid, with a free email and a free
    name, succeeds. *)
Lemma post_register_succeeds e now fresh salt users name mail pw a :
  name <> "" -> mail <> "" -> bcrypt_hash R pw 10 salt <> "" ->
  Mongo.findOne_email mail users = None ->
  (forall x, In x users -> User.username x <> name) ->
  post_register L R e now fresh salt users (Some name) mail (Some pw) (Some a)
  = ({| flash_type := "success"; flash_message := "Registered successfully";
        location := "/" |},
     Some (jwt_sign L {| email := mail; userid := fresh |} (secret_of e) now),
     (users ++ [User.mk fresh name mail (bcrypt_hash R pw 10 salt) a []])%list).
Proof.
  intros Hn Hm Hh F Hname. unfold post_register. rewrite F. simpl.
  unfold User_create, invalid_paths.
  rewrite (truthy_string_or name Hn), !truthy_nonempty by assumption.
  cbn [app].
  rewrite (existsb_false_of_forall (fun u => String.eqb (User.username u) name) users).
  2:{ intros x Hx. apply String.eqb_neq. now apply Hname. }
  rewrite (existsb_false_of_forall (fun u => String.eqb (User.email u) mail) users).
  2:{ intros x Hx. apply String.eqb_neq. now apply (findOne_email_None mail users). }
  reflexivity.
Qed.

(** X20. [POST /register] either fails, and then it adds no user, sets no
    cookie and sends the request back to [/register] with an error; or it
    sets a cookie, and then a name, an email, an age and a password were
    sent, the name and the email not empty, no user had the email or the
    name, one user is added after the others with these fields and the hash
    of the password, and the token is signed for the email and the id of
    that user.  The password itself may be empty: with the other fields
    valid and free, an empty password is hashed and registered. *)
Theorem register_adds_only_valid_users
    e now fresh salt (users : list User.t) username mail password age
    (r : redirect) (c : cookie L) (users' : list User.t) :
  post_register L R e now fresh salt users username mail password age = (r, c, users') ->
  (c = None ->
   users' = users /\ flash_type r = "error" /\ location r = "/register")
  /\ (forall token, c = Some token ->
      exists name pw a,
        username = Some name /\ name <> "" /\ mail <> "" /\ password = Some pw
        /\ age = Some a
        /\ (forall x, In x users -> User.email x <> mail /\ User.username x <> name)
        /\ users'
           = (users ++ [User.mk fresh name mail (bcrypt_hash R pw 10 salt) a []])%list
        /\ token = jwt_sign L {| email := mail; userid := fresh |} (secret_of e) now
        /\ flash_type r = "success" /\ location r = "/")
  /\ (forall name a,
        username = Some name -> name <> "" -> mail <> "" -> age = Some a ->
        password = Some "" ->
        bcrypt_hash R "" 10 salt <> "" ->
        (forall x, In x users -> User.email x <> mail /\ User.username x <> name) ->
        c = Some (jwt_sign L {| email := mail; userid := fresh |} (secret_of e) now)
        /\ users'
           = (users ++ [User.mk fresh name mail (bcrypt_hash R "" 10 salt) a []])%list).
Proof.
  intros H. split; [|split].
  - intros ->. now apply post_register_no_cookie in H.
  - intros token ->.
    apply post_register_cookie in H
      as (name & pw & a & H1 & H2 & H3 & H4 & H5 & H6 & H7 & H8 & H9 & H10 & H11).
    exists name, pw, a. repeat split; auto.
    now apply (findOne_email_None mail users).
  - intros name a -> Hn Hm -> -> Hh Hfree.
    rewrite (post_register_succeeds e now fresh salt users name mail "" a) in H; auto.
    + injection H as _ <- <-. split; reflexivity.
    + destruct (Mongo.findOne_email mail users) as [x|] eqn:F; [|reflexivity].
      unfold Mongo.findOne_email in F. apply find_some in F as [Hx F].
      apply String.eqb_eq in F. now destruct (proj1 (Hfree x Hx)).
    + intros x Hx. now apply Hfree.
Qed.

(** X21. Registration keeps the users well formed: when the users have
    distinct ids, distinct emails and distinct names, none of them empty,
    and the id for the new user is not in use, the same holds after
    [POST /register], whatever the request sends. *)
Theorem register_keeps_users_ok
    e now fresh salt (users : list User.t) username mail password age :
  users_ok users ->
  ~ In fresh (map User._id users) ->
  users_ok (snd (post_register L R e now fresh salt users username mail password age)).
Proof.
  intros Hok Hfresh.
  destruct (post_register L R e now fresh salt users username mail password age)
    as [[r c] users'] eqn:E. cbn [snd].
  destruct c as [token|].
  - apply post_register_cookie in E
      as (name & pw & a & _ & Hn & Hm & _ & _ & F & Hname & -> & _).
    destruct Hok as (I & M & U & NE).
    unfold users_ok. rewrite !map_app. cbn [map User._id User.email User.username].
    repeat split.
    + apply NoDup_snoc; auto.
    + apply NoDup_snoc; auto.
      intros Hin. apply in_map_iff in Hin as (x & Hx & Hin).
      now apply (findOne_email_None mail users F x).
    + apply NoDup_snoc; auto.
      intros Hin. apply in_map_iff in Hin as (x & Hx & Hin).
      now apply (Hname x).
    + apply Forall_app. split; [exact NE|]. constructor; [|constructor]. auto.
  - apply post_register_no_cookie in E as (-> & _). exact Hok.
Qed.

(** X22. Register, then log in: with a [bcrypt] whose hashes match their
    password, a login with the email and the password of a registration
    that succeeded, against the users it left, succeeds and its token is
    signed for the email and the id of the user registered. *)
Theorem register_then_login
    e now fresh salt (users : list User.t) username mail (pw : string) age
    (r : redirect) (token : Token L) (users' : list User.t) (later : Z) :
  hash_compare L R ->
  post_register L R e now fresh salt users username mail (Some pw) age
  = (r, Some token, users') ->
  post_login L e later users' mail (Some pw)
  = ({| flash_type := "success"; flash_message := "Logged in successfully";
        location := "/" |},
     Some (jwt_sign L {| email := mail; userid := fresh |} (secret_of e) later)).
Proof.
  intros Hc H.
  apply post_register_cookie in H
    as (name & pw' & a & _ & _ & _ & Hpw & _ & F & _ & -> & _).
  injection Hpw as <-.
  unfold post_login.
  rewrite (findOne_email_snoc mail users
             (User.mk fresh name mail (bcrypt_hash R pw 10 salt) a []) F eq_refl).
  simpl. now rewrite Hc.
Qed.

(** X23. The cookie of a registration identifies the user registered:
    with a library whose verifier returns what was signed, the middleware
    of a later request decodes the token to the email sent and the id of
    the new user, who is among the users, and the guard lets the request
    pass. *)
Theorem register_token_identity
    e now fresh salt (users : list User.t) username mail password age
    (r : redirect) (token : Token L) (users' : list User.t) :
  verify_sign L ->
  post_register L R e now fresh salt users username mail password age
  = (r, Some token, users') ->
  token_middleware L e (Some token)
  = Some {| payload := {| email := mail; userid := fresh |}; iat := now |}
  /\ isLoggedIn L e (Some token) = Next
  /\ exists user, In user users' /\ User._id user = fresh /\ User.email user = mail.
Proof.
  intros Hlaw H.
  apply post_register_cookie in H
    as (name & pw & a & _ & _ & _ & _ & _ & _ & _ & -> & -> & _).
  assert (T : token_middleware L e
                (Some (jwt_sign L {| email := mail; userid := fresh |} (secret_of e) now))
              = Some {| payload := {| email := mail; userid := fresh |}; iat := now |}).
  { unfold token_middleware. now rewrite Hlaw. }
  split; [exact T|]. split; [now apply (isLoggedIn_of_identity L _ _ _ T)|].
  eexists. split; [apply in_or_app; right; now left|]. split; reflexivity.
Qed.

(** X24. The two conflicts of a registration.  An email that a user has
    is answered with [User already exists].  A name that a user has, with
    an email that is free and every field valid, is refused by the store
    only: the answer carries the text of its duplicate key error.  In both
    cases no user is added and no cookie is set. *)
Theorem register_conflicts
    e now fresh salt (users : list User.t) (name mail pw : string) (a : Z) (x : User.t) :
  In x users ->
  (User.email x = mail ->
   forall username password age,
     post_register L R e now fresh salt users username mail password age
     = ({| flash_type := "error"; flash_message := "User already exists";
           location := "/register" |}, None, users))
  /\ (User.username x = name ->
      (forall y, In y users -> User.email y <> mail) ->
      name <> "" -> mail <> "" -> bcrypt_hash R pw 10 salt <> "" ->
      post_register L R e now fresh salt users (Some name) mail (Some pw) (Some a)
      = ({| flash_type := "error";
            flash_message := "Error registering user: "
                             ++ duplicate_key_message R "username" name;
            location := "/register" |}, None, users)).
Proof.
  intros Hx. split.
  - intros E username password age. unfold post_register.
    destruct (Mongo.findOne_email mail users) as [y|] eqn:F; [reflexivity|].
    now destruct (findOne_email_None mail users F x Hx).
  - intros E Hfree Hn Hm Hh. unfold post_register.
    destruct (Mongo.findOne_email mail users) as [y|] eqn:F.
    { unfold Mongo.findOne_email in F. apply find_some in F as [Hy F].
      apply String.eqb_eq in F. now destruct (Hfree y Hy). }
    simpl. unfold User_create, invalid_paths.
    rewrite (truthy_string_or name Hn), !truthy_nonempty by assumption.
    cbn [app].
    replace (existsb (fun u => String.eqb (User.username u) name) users) with true.
    + reflexivity.
    + symmetry. apply existsb_exists. exists x. split; [exact Hx|].
      now apply String.eqb_eq.
Qed.

End Register.

(** ** The further theorems at sample data *)

Lemma plain_hash_compare : hash_compare plain_libraries plain_registration.
Proof. intros d rounds salt. simpl. apply String.eqb_refl. Qed.

Lemma shared_store_ids : NoDup (map Note._id shared_store).
Proof. simpl. repeat constructor; simpl; intuition discriminate. Qed.

Lemma sample_users_ok : users_ok sample_users.
Proof.
  unfold users_ok, sample_users. simpl.
  repeat split; repeat constructor; simpl; intuition discriminate.
Qed.

Lemma post_notes_adds_iff_title_and_content_witness :
  token_middleware plain_libraries default_env alice_cookie = Some alice
  /\ post_notes plain_libraries default_env alice_cookie 60 7%N
       (Some "title") (Some "content") None three_notes
     = ({| flash_type := "success"; flash_message := "Note created successfully";
           location := "/" |},
        (three_notes ++ [Note.mk 7%N "title" "content" None 1%N 60])%list)
  /\ post_notes plain_libraries default_env alice_cookie 60 7%N
       (Some "title") (Some "") None three_notes
     = ({| flash_type := "error"; flash_message := "Title and content are required";
           location := "/" |}, three_notes).
Proof.
  pose proof (post_notes_adds_iff_title_and_content plain_libraries default_env
                alice_cookie alice 60 7%N (Some "title") (Some "content") None
                three_notes eq_refl) as [A _].
  pose proof (post_notes_adds_iff_title_and_content plain_libraries default_env
                alice_cookie alice 60 7%N (Some "title") (Some "") None
                three_notes eq_refl) as [_ B].
  split; [reflexivity|]. split.
  - apply (A "title" "content"); [reflexivity | reflexivity | discriminate | discriminate].
  - apply B. right. right. right. reflexivity.
Defined.

Lemma created_note_can_be_shown_witness :
  ~ In 7%N (map Note._id shared_store)
  /\ get_note (Some alice) (IdText 7%N)
       (snd (post_notes plain_libraries default_env alice_cookie 60 7%N
               (Some "title") (Some "content") None shared_store))
     = RenderShow (Note.mk 7%N "title" "content" None 1%N 60).
Proof.
  assert (H : ~ In 7%N (map Note._id shared_store))
    by (simpl; intuition discriminate).
  split; [exact H|].
  apply (created_note_can_be_shown plain_libraries default_env alice_cookie alice);
    [reflexivity | discriminate | discriminate | exact H].
Defined.

Lemma created_note_heads_newest_listing_witness :
  (forall m, In m shared_store -> Note.user m = 1%N -> Note.createdAt m < 60)
  /\ shown (get_index
              (snd (post_notes plain_libraries default_env alice_cookie 60 7%N
                      (Some "title") (Some "content") None shared_store))
              (Some alice) (Query.mk None None None))
     = [Note.mk 7%N "title" "content" None 1%N 60;
        note_at 3 1 "c" 30; note_at 2 1 "b" 20; note_at 1 1 "a" 10].
Proof.
  assert (H : forall m, In m shared_store -> Note.user m = 1%N -> Note.createdAt m < 60).
  { intros m Hm _. simpl in Hm.
    destruct Hm as [<-|[<-|[<-|[<-|[]]]]]; reflexivity. }
  split; [exact H|].
  apply (created_note_heads_newest_listing plain_libraries default_env alice_cookie
           alice 60 7%N "title" "content" None shared_store);
    [reflexivity | discriminate | discriminate | exact H].
Defined.

Lemma delete_twice_witness :
  let once := snd (post_delete plain_libraries default_env alice_cookie
                     (IdText 2%N) shared_store) in
  NoDup (map Note._id shared_store)
  /\ List.length once = 3%nat
  /\ post_delete plain_libraries default_env alice_cookie (IdText 2%N) once
     = (NotFound, once).
Proof.
  cbv zeta. split; [exact shared_store_ids|]. split; [reflexivity|].
  exact (delete_twice plain_libraries default_env alice_cookie alice 2%N shared_store
           eq_refl shared_store_ids).
Defined.

Lemma create_then_delete_restores_witness :
  (forall m, In m shared_store -> ~ (Note._id m = 7%N /\ Note.user m = 1%N))
  /\ post_delete plain_libraries default_env alice_cookie (IdText 7%N)
       (snd (post_notes plain_libraries default_env alice_cookie 60 7%N
               (Some "title") (Some "content") None shared_store))
     = ({| flash_type := "success"; flash_message := "Note deleted"; location := "/" |},
        shared_store).
Proof.
  assert (H : forall m, In m shared_store -> ~ (Note._id m = 7%N /\ Note.user m = 1%N)).
  { intros m Hm [Hid _]. simpl in Hm.
    destruct Hm as [<-|[<-|[<-|[<-|[]]]]]; discriminate. }
  split; [exact H|].
  apply (create_then_delete_restores plain_libraries default_env alice_cookie alice);
    [reflexivity | discriminate | discriminate | exact H].
Defined.

Lemma others_listing_unchanged_witness :
  userid (payload bob) <> userid (payload alice)
  /\ get_index (snd (post_delete plain_libraries default_env alice_cookie
                       (IdText 2%N) shared_store))
               (Some bob) (Query.mk None None None)
     = get_index shared_store (Some bob) (Query.mk None None None).
Proof.
  assert (H : userid (payload bob) <> userid (payload alice)) by discriminate.
  split; [exact H|].
  apply (proj2 (others_listing_unchanged plain_libraries default_env alice_cookie
                  alice bob eq_refl H)).
Defined.

Lemma deleted_note_is_gone_witness :
  In (note_at 2 1 "b" 20) shared_store
  /\ exists rest,
       post_delete plain_libraries default_env alice_cookie (IdText 2%N) shared_store
       = ({| flash_type := "success"; flash_message := "Note deleted"; location := "/" |},
          rest)
       /\ get_note (Some alice) (IdText 2%N) rest
          = RedirectShow {| flash_type := "error";
                            flash_message := "Note not found or unauthorized";
                            location := "/" |}.
Proof.
  assert (Hin : In (note_at 2 1 "b" 20) shared_store) by (simpl; tauto).
  split; [exact Hin|].
  destruct (deleted_note_is_gone plain_libraries default_env alice_cookie alice
              (note_at 2 1 "b" 20) shared_store eq_refl shared_store_ids Hin eq_refl)
    as (rest & E & _ & G & _).
  exists rest. split; [exact E | exact G].
Defined.

Lemma register_adds_only_valid_users_witness :
  (exists r token users',
     post_register plain_libraries plain_registration default_env 70 3%N "salt"
       sample_users (Some "carol") "carol@example.org" (Some "secret") (Some 25)
     = (r, Some token, users')
     /\ users' = (sample_users
                  ++ [User.mk 3%N "carol" "carol@example.org" "$secret" 25 []])%list)
  /\ bcrypt_hash plain_registration "" 10 "salt" <> ""
  /\ snd (post_register plain_libraries plain_registration default_env 70 3%N "salt"
            sample_users (Some "carol") "carol@example.org" (Some "") (Some 25))
     = (sample_users ++ [User.mk 3%N "carol" "carol@example.org" "$" 25 []])%list.
Proof.
  split; [|split].
  - eexists. eexists. eexists. split; [reflexivity|].
    destruct (proj1 (proj2 (register_adds_only_valid_users plain_libraries
                              plain_registration default_env 70 3%N "salt" sample_users
                              (Some "carol") "carol@example.org" (Some "secret")
                              (Some 25) _ _ _ eq_refl))
                    _ eq_refl)
      as (name & pw & a & H1 & _ & _ & H4 & H5 & _ & H7 & _).
    injection H1 as <-. injection H4 as <-. injection H5 as <-. exact H7.
  - discriminate.
  - refine (proj2 (proj2 (proj2 (register_adds_only_valid_users plain_libraries
                                   plain_registration default_env 70 3%N "salt"
                                   sample_users (Some "carol") "carol@example.org"
                                   (Some "") (Some 25) _ _ _ eq_refl))
                         "carol" 25 eq_refl _ _ eq_refl eq_refl _ _));
      try discriminate.
    intros x Hx. simpl in Hx. destruct Hx as [<-|[<-|[]]]; split; discriminate.
Defined.

Lemma register_keeps_users_ok_witness :
  users_ok sample_users
  /\ ~ In 3%N (map User._id sample_users)
  /\ users_ok (snd (post_register plain_libraries plain_registration default_env 70
                      3%N "salt" sample_users (Some "carol") "carol@example.org"
                      (Some "secret") (Some 25))).
Proof.
  assert (H : ~ In 3%N (map User._id sample_users)) by (simpl; intuition discriminate).
  split; [exact sample_users_ok|]. split; [exact H|].
  exact (register_keeps_users_ok plain_libraries plain_registration default_env 70
           3%N "salt" sample_users (Some "carol") "carol@example.org"
           (Some "secret") (Some 25) sample_users_ok H).
Defined.

Lemma register_then_login_witness :
  hash_compare plain_libraries plain_registration
  /\ exists r token users',
       post_register plain_libraries plain_registration default_env 70 3%N "salt"
         sample_users (Some "carol") "carol@example.org" (Some "secret") (Some 25)
       = (r, Some token, users')
       /\ post_login plain_libraries default_env 80 users' "carol@example.org"
            (Some "secret")
          = ({| flash_type := "success"; flash_message := "Logged in successfully";
                location := "/" |},
             Some ({| email := "carol@example.org"; userid := 3%N |}, "jwt_secret", 80)).
Proof.
  split; [exact plain_hash_compare|].
  eexists. eexists. eexists. split; [reflexivity|].
  exact (register_then_login plain_libraries plain_registration default_env 70 3%N
           "salt" sample_users (Some "carol") "carol@example.org" "secret" (Some 25)
           _ _ _ 80 plain_hash_compare eq_refl).
Defined.

Lemma register_token_identity_witness :
  verify_sign plain_libraries
  /\ exists r token users',
       post_register plain_libraries plain_registration default_env 70 3%N "salt"
         sample_users (Some "carol") "carol@example.org" (Some "secret") (Some 25)
       = (r, Some token, users')
       /\ token_middleware plain_libraries default_env (Some token)
          = Some {| payload := {| email := "carol@example.org"; userid := 3%N |};
                    iat := 70 |}.
Proof.
  split; [exact plain_libraries_verify_sign|].
  eexists. eexists. eexists. split; [reflexivity|].
  exact (proj1 (register_token_identity plain_libraries plain_registration default_env
                  70 3%N "salt" sample_users (Some "carol") "carol@example.org"
                  (Some "secret") (Some 25) _ _ _ plain_libraries_verify_sign eq_refl)).
Defined.

Lemma register_conflicts_witness :
  let bob_user := User.mk 2%N "bob" "bob@example.org" "$builder" 41 [] in
  In bob_user sample_users
  /\ post_register plain_libraries plain_registration default_env 70 3%N "salt"
       sample_users (Some "robert") "bob@example.org" (Some "secret") (Some 25)
     = ({| flash_type := "error"; flash_message := "User already exists";
           location := "/register" |}, None, sample_users)
  /\ (forall y, In y sample_users -> User.email y <> "bobby@example.org")
  /\ post_register plain_libraries plain_registration default_env 70 3%N "salt"
       sample_users (Some "bob") "bobby@example.org" (Some "secret") (Some 25)
     = ({| flash_type := "error";
           flash_message := "Error registering user: "
                            ++ duplicate_key_message plain_registration "username" "bob";
           location := "/register" |}, None, sample_users).
Proof.
  cbv zeta.
  assert (Hin : In (User.mk 2%N "bob" "bob@example.org" "$builder" 41 []) sample_users)
    by (simpl; tauto).
  assert (Hfree : forall y, In y sample_users -> User.email y <> "bobby@example.org").
  { intros y Hy. simpl in Hy. destruct Hy as [<-|[<-|[]]]; discriminate. }
  pose proof (register_conflicts plain_libraries plain_registration default_env 70 3%N
                "salt" sample_users "bob" "bob@example.org" "secret" 25 _ Hin) as [A _].
  pose proof (register_conflicts plain_libraries plain_registration default_env 70 3%N
                "salt" sample_users "bob" "bobby@example.org" "secret" 25 _ Hin) as [_ B].
  split; [exact Hin|]. split; [apply A; reflexivity|]. split; [exact Hfree|].
  apply B; [reflexivity | exact Hfree | discriminate | discriminate | discriminate].
Defined.

Lemma isLoggedIn_agrees_with_middleware_witness :
  token_middleware plain_libraries default_env alice_cookie <> None
  /\ isLoggedIn plain_libraries default_env alice_cookie = Next.
Proof.
  assert (H : token_middleware plain_libraries default_env alice_cookie <> None)
    by discriminate.
  split; [exact H|].
  exact (proj2 (proj1 (isLoggedIn_agrees_with_middleware plain_libraries default_env
                         alice_cookie)) H).
Defined.

(** ** The search text *)

Lemma trimEnd_idempotent (s : string) : JS.trimEnd (JS.trimEnd s) = JS.trimEnd s.
Proof.
  induction s as [|c s IH]; [reflexivity|].
  cbn [JS.trimEnd]. destruct (JS.trimEnd s) as [|d r] eqn:E.
  - destruct (JS.is_white_space c) eqn:W; [reflexivity|].
    cbn [JS.trimEnd]. now rewrite W.
  - cbn [JS.trimEnd] in *. now rewrite IH.
Qed.

Lemma trimStart_fixed (s : string) :
  match s with
  | EmptyString => True
  | String c _ => JS.is_white_space c = false
  end ->
  JS.trimStart s = s.
Proof. destruct s as [|c s]; [reflexivity|]. intros H. cbn. now rewrite H. Qed.

Lemma trimStart_head (s : string) :
  match JS.trimStart s with
  | EmptyString => True
  | String c _ => JS.is_white_space c = false
  end.
Proof.
  induction s as [|c s IH]; [exact I|].
  cbn [JS.trimStart]. destruct (JS.is_white_space c) eqn:W; [exact IH | exact W].
Qed.

Lemma trimEnd_head (s : string) :
  match s with
  | EmptyString => True
  | String c _ => JS.is_white_space c = false
  end ->
  match JS.trimEnd s with
  | EmptyString => True
  | String c _ => JS.is_white_space c = false
  end.
Proof.
  destruct s as [|c s]; [intros _; exact I|]. intros W.
  cbn [JS.trimEnd]. destruct (JS.trimEnd s); [rewrite W|]; exact W.
Qed.

Lemma trim_fixed (s : string) :
  JS.trimStart (JS.trim s) = JS.trim s /\ JS.trimEnd (JS.trim s) = JS.trim s.
Proof.
  unfold JS.trim. split.
  - apply trimStart_fixed, trimEnd_head, trimStart_head.
  - apply trimEnd_idempotent.
Qed.

Lemma trim_idempotent (s : string) : JS.trim (JS.trim s) = JS.trim s.
Proof.
  destruct (trim_fixed s) as [A B].
  unfold JS.trim at 1. now rewrite A, B.
Qed.

(** X25. White space around the search text does not count: a request
    with a search text and the request with the same text trimmed get the
    same response, and the search text handed to the view neither starts
    nor ends with white space. *)
Theorem search_ignores_surrounding_white_space
    (coll : list Note.t) (lu : option decoded) (page sort : option string)
    (s : string) :
  get_index coll lu (Query.mk page sort (Some s))
  = get_index coll lu (Query.mk page sort (Some (JS.trim s)))
  /\ search_of (Query.mk page sort (Some s)) = JS.trim s
  /\ JS.trimStart (JS.trim s) = JS.trim s
  /\ JS.trimEnd (JS.trim s) = JS.trim s.
Proof.
  assert (E : forall t, search_of (Query.mk page sort (Some t)) = JS.trim t).
  { intros t. unfold search_of. cbn [Query.search]. now destruct t. }
  assert (S : search_of (Query.mk page sort (Some s))
              = search_of (Query.mk page sort (Some (JS.trim s)))).
  { now rewrite !E, trim_idempotent. }
  split; [|split; [apply E | apply trim_fixed]].
  unfold get_index. rewrite S. reflexivity.
Qed.

(** X26. A search text that, once trimmed, starts with one of the
    quantifiers [*], [+] and [?] cannot be read as a pattern: the listing
    of every caller with an identity answers with the status 500, whatever
    the store, the page and the sort, while the listing without identity
    still renders. *)
Theorem search_starting_with_quantifier_fails
    (coll : list Note.t) (u : decoded) (page sort : option string)
    (s rest : string) (c : ascii) :
  JS.trim s = String c rest ->
  RegExp.quantifier_of c <> None ->
  get_index coll (Some u) (Query.mk page sort (Some s))
  = Some (Index.Status500 "Error fetching notes")
  /\ exists v, get_index coll None (Query.mk page sort (Some s))
               = Some (Index.Render v).
Proof.
  intros T Hq. split; [|eexists; reflexivity].
  assert (E : search_of (Query.mk page sort (Some s)) = String c rest).
  { unfold search_of. cbn [Query.search]. destruct s; [discriminate | exact T]. }
  unfold get_index. rewrite E. unfold query_of. cbn [JS.truthy].
  unfold RegExp.compile. cbn [RegExp.parse].
  destruct (RegExp.quantifier_of c); [reflexivity | contradiction].
Qed.

Lemma search_starting_with_quantifier_fails_witness :
  JS.trim " ?what " = String "?" "what"
  /\ RegExp.quantifier_of "?" <> None
  /\ get_index twelve_notes (Some alice) (Query.mk None None (Some " ?what "))
     = Some (Index.Status500 "Error fetching notes").
Proof.
  assert (H : RegExp.quantifier_of "?" <> None) by discriminate.
  split; [reflexivity|]. split; [exact H|].
  exact (proj1 (search_starting_with_quantifier_fails twelve_notes alice None None
                  " ?what " "what" "?" eq_refl H)).
Defined.

(** * The listing for every search *)

(** ** The handler unfolded *)

Lemma listing_where_fields coll keep page o sort search :
  let total := Z.of_nat (List.length (filter keep coll)) in
  let pages := Math_ceil_div total limit in
  Index.totalNotes (listing_where coll keep page o sort search) = total
  /\ Index.totalPages (listing_where coll keep page o sort search) = pages
  /\ Index.currentPage (listing_where coll keep page o sort search) = clamp pages page
  /\ Index.notes (listing_where coll keep page o sort search)
     = page_slice (clamp pages page) (Mongo.sort o (filter keep coll))
  /\ Index.sort (listing_where coll keep page o sort search) = sort
  /\ Index.search (listing_where coll keep page o sort search) = search.
Proof. repeat split; reflexivity. Qed.

Lemma pages_where_nonneg (keep : Note.t -> bool) coll :
  0 <= Math_ceil_div (Z.of_nat (List.length (filter keep coll))) limit.
Proof.
  pose proof (ceil_div_spec (Z.of_nat (List.length (filter keep coll)))). lia.
Qed.

(** A listing that renders for an identity read the search, built the
    pattern and shows [listing_where], from a page that is at least 1. *)
Lemma index_handler_Render new_RegExp coll u page sort search v :
  index_handler new_RegExp coll (Some u) page sort search = Index.Render v ->
  exists s regex,
    search_text search = Ok s
    /\ search_regex new_RegExp s = Ok regex
    /\ 1 <= Index.currentPage v
    /\ v = listing_where coll (matches_regex (userid (payload u)) regex)
             (page_number page) (sortOptions_of (sort_name sort)) (sort_name sort) s.
Proof.
  unfold index_handler.
  destruct (search_text search) as [s|e] eqn:S; simpl; [|discriminate].
  destruct (search_regex new_RegExp s) as [regex|e] eqn:R; simpl; [|discriminate].
  unfold find_where.
  destruct (_ <? 0) eqn:E; simpl; [discriminate|].
  intros H. injection H as <-. exists s, regex.
  split; [reflexivity|]. split; [exact R|]. split; [|reflexivity].
  cbn [Index.currentPage]. apply Z.ltb_ge in E. unfold limit in *. lia.
Qed.

(** The listing renders for an identity whenever the search is a text or
    absent, the pattern is built and the page is at least 1. *)
Lemma index_handler_renders new_RegExp coll u page sort search s regex :
  search_text search = Ok s ->
  search_regex new_RegExp s = Ok regex ->
  1 <= page_number page ->
  index_handler new_RegExp coll (Some u) page sort search
  = Index.Render
      (listing_where coll (matches_regex (userid (payload u)) regex)
         (page_number page) (sortOptions_of (sort_name sort)) (sort_name sort) s).
Proof.
  intros S R Hp. unfold index_handler. rewrite S. simpl. rewrite R. simpl.
  unfold find_where.
  pose proof (pages_where_nonneg (matches_regex (userid (payload u)) regex) coll) as Hn.
  destruct (clamp_cases
              (Math_ceil_div
                 (Z.of_nat (List.length
                              (filter (matches_regex (userid (payload u)) regex) coll)))
                 limit) (page_number page)) as [(C1 & C2 & C3)|(C1 & C3)].
  - destruct (_ <? 0) eqn:E; [apply Z.ltb_lt in E; unfold limit in *; lia|].
    reflexivity.
  - destruct (_ <? 0) eqn:E; [apply Z.ltb_lt in E; unfold limit in *; lia|].
    reflexivity.
Qed.

(** The listing does not render for a page below 1, nor when the search
    is not a text or the pattern is refused. *)
Lemma index_handler_fails_below_1 new_RegExp coll u page sort search :
  page_number page < 1 ->
  index_handler new_RegExp coll (Some u) page sort search
  = Index.Status500 "Error fetching notes".
Proof.
  intros Hp. unfold index_handler.
  destruct (search_text search) as [s|e]; simpl; [|reflexivity].
  destruct (search_regex new_RegExp s) as [regex|e]; simpl; [|reflexivity].
  unfold find_where.
  pose proof (pages_where_nonneg (matches_regex (userid (payload u)) regex) coll) as Hn.
  destruct (clamp_cases
              (Math_ceil_div
                 (Z.of_nat (List.length
                              (filter (matches_regex (userid (payload u)) regex) coll)))
                 limit) (page_number page)) as [(C1 & C2 & C3)|(C1 & C3)]; [lia|].
  destruct (_ <? 0) eqn:E; [reflexivity|].
  apply Z.ltb_ge in E. unfold limit in *. lia.
Qed.

Lemma matches_regex_user u regex n :
  matches_regex u regex n = true -> Note.user n = u.
Proof.
  unfold matches_regex. intros H. apply andb_prop in H as [H _].
  now apply N.eqb_eq in H.
Qed.

Lemma matches_regex_owned u regex n :
  matches_regex u regex n = true -> owned_by u n = true.
Proof. unfold matches_regex, owned_by. intros H. now apply andb_prop in H. Qed.

Lemma listing_where_In coll keep page o sort search n :
  In n (Index.notes (listing_where coll keep page o sort search)) ->
  In n coll /\ keep n = true.
Proof.
  cbn [listing_where Index.notes]. intros H.
  apply page_slice_In in H. apply sort_In in H. now apply filter_In in H.
Qed.

(** Where [get_index] answers, the handler answers the same for every
    engine that agrees with the model of regular expressions. *)
Lemma get_index_agrees new_RegExp coll lu (q : Query.t) r :
  extends_fragment new_RegExp ->
  get_index coll lu q = Some r ->
  index_handler new_RegExp coll lu (Query.page q) (Query.sort q) (search_param_of q) = r.
Proof.
  intros Hext. unfold get_index, index_handler.
  assert (S : search_text (search_param_of q) = Ok (search_of q)).
  { unfold search_text, search_param_of, search_of. now destruct (Query.search q). }
  rewrite S. simpl.
  change (page_number (Query.page q)) with (page_of q).
  change (sort_name (Query.sort q)) with (sort_of q).
  destruct lu as [u|]; [|intros H; now injection H as <-].
  unfold query_of, search_regex.
  destruct (JS.truthy (search_of q)) eqn:T.
  - specialize (Hext (search_of q)).
    destruct (RegExp.compile (search_of q)) as [p|msg|]; [| |discriminate].
    + destruct Hext as (test & -> & Ht). intros H. injection H as <-. simpl.
      assert (E : filter (matches_regex (userid (payload u)) (Some test)) coll
                  = filter (Mongo.matches
                              {| Mongo.user := userid (payload u);
                                 Mongo.or_title_content := Some p |}) coll).
      { apply filter_ext. intros n. unfold matches_regex, Mongo.matches. simpl.
        now rewrite !Ht. }
      unfold find_where, Mongo.find_sort_skip_limit, Mongo.countDocuments.
      rewrite E. reflexivity.
    + destruct Hext as (e & ->). intros H. injection H as <-. reflexivity.
  - intros H. injection H as <-. simpl.
    unfold find_where, Mongo.find_sort_skip_limit, Mongo.countDocuments.
    reflexivity.
Qed.


(** ** Owner scoping (C1) *)

(** C1. Every note of a rendered listing belongs to the identity of the
    request, so a note of another owner is never among them: for every
    page, every sort, every search parameter, text or not, and whatever the
    engine of regular expressions makes of the search.  The listing does
    render when the search is absent or a text that the engine accepts and
    the page is at least 1. *)
Theorem listing_owner_scoped
    (new_RegExp : string -> result matcher) (coll : list Note.t) (u : decoded)
    (page sort : option string) (search : search_param) :
  (forall v, index_handler new_RegExp coll (Some u) page sort search = Index.Render v ->
     Forall (fun n => Note.user n = userid (payload u)) (Index.notes v)
     /\ forall n, In n coll -> Note.user n <> userid (payload u) ->
                  ~ In n (Index.notes v))
  /\ (forall s regex,
        search_text search = Ok s ->
        search_regex new_RegExp s = Ok regex ->
        1 <= page_number page ->
        exists v, index_handler new_RegExp coll (Some u) page sort search
                  = Index.Render v).
Proof.
  split.
  - intros v H. apply index_handler_Render in H as (s & regex & _ & _ & _ & ->).
    assert (A : forall n, In n (Index.notes (listing_where coll
                   (matches_regex (userid (payload u)) regex) (page_number page)
                   (sortOptions_of (sort_name sort)) (sort_name sort) s)) ->
                Note.user n = userid (payload u)).
    { intros n Hn. apply listing_where_In in Hn as [_ Hn].
      now apply matches_regex_user in Hn. }
    split.
    + rewrite Forall_forall. exact A.
    + intros n _ Hn Hin. apply Hn. now apply A.
  - intros s regex S R Hp. eexists.
    apply (index_handler_renders _ _ _ _ _ _ s regex); assumption.
Qed.

Lemma listing_owner_scoped_witness :
  exists v,
    index_handler fragment_only twelve_notes (Some bob) (Some "1") None
                  (SearchText "o.her")
    = Index.Render v
    /\ Index.notes v = [note_at 99 2 "other" 50]
    /\ Forall (fun n => Note.user n = 2%N) (Index.notes v).
Proof.
  eexists. split; [reflexivity|]. split; [reflexivity|].
  exact (proj1 (proj1 (listing_owner_scoped fragment_only twelve_notes bob (Some "1")
                         None (SearchText "o.her")) _ eq_refl)).
Defined.

(** ** Pagination (C3) *)




(** ** Order within the listing (C9) *)

Lemma sort_filter_where_Permutation o (uid : ObjectId) (keep : Note.t -> bool)
    (coll coll' : list Note.t) :
  (forall n, keep n = true -> owned_by uid n = true) ->
  Permutation coll coll' ->
  NoDup (map Note.createdAt (filter (owned_by uid) coll)) ->
  Mongo.sort o (filter keep coll) = Mongo.sort o (filter keep coll').
Proof.
  intros Hk Hp Hnd. apply (sorted_unique o).
  - eapply Permutation_NoDup.
    + apply Permutation_map. symmetry. apply sort_Permutation.
    + eapply NoDup_map_filter; [|exact Hnd]. exact Hk.
  - rewrite !sort_Permutation. now apply filter_Permutation.
  - apply sort_sorted.
  - apply sort_sorted.
Qed.



(** ** The empty listing (C10) *)

(** C10 does not hold as stated.  An identified caller who has no note and
    asks for the page [-1] gets no listing at all but the status 500; and a
    caller without identity whose search parameter is not a text gets the
    status 500 too, not page 1. *)
Lemma empty_listing_below_page_1 :
  filter (owned_by (userid (payload alice))) [] = []
  /\ page_number (Some "-1") = -1
  /\ index_handler fragment_only [] (Some alice) (Some "-1") None SearchAbsent
     = Index.Status500 "Error fetching notes"
  /\ get_index [] (Some alice) (Query.mk (Some "-1") None None)
     = Some (Index.Status500 "Error fetching notes")
  /\ index_handler fragment_only [] None None None SearchNotText
     = Index.Status500 "Error fetching notes".
Proof. repeat split; reflexivity. Qed.

(** C10, as the code has it.  A rendered listing that matches no note has
    no page, shows no note and reports the page that was asked for, not
    clamped, the page being one that a number holds exactly; it does
    render, with that page, for every such page from 1 on, a page of 7
    included, when the search is absent or a text that the engine accepts.
    The listing without identity reports page 1 when the search is absent or
    a text. *)
Theorem empty_listing_not_clamped
    (new_RegExp : string -> result matcher) (coll : list Note.t) (u : decoded)
    (page sort : option string) (search : search_param) :
  (forall v, index_handler new_RegExp coll (Some u) page sort search = Index.Render v ->
     Index.totalNotes v = 0 -> exact (page_number page) ->
     Index.totalPages v = 0 /\ Index.currentPage v = page_number page
     /\ Index.notes v = [])
  /\ (forall s regex,
        search_text search = Ok s ->
        search_regex new_RegExp s = Ok regex ->
        filter (matches_regex (userid (payload u)) regex) coll = [] ->
        1 <= page_number page -> exact (page_number page) ->
        index_handler new_RegExp coll (Some u) page sort search
        = Index.Render
            {| Index.notes := []; Index.currentPage := page_number page;
               Index.totalPages := 0; Index.totalNotes := 0;
               Index.sort := sort_name sort; Index.search := s |})
  /\ (exists v, index_handler new_RegExp [] (Some u) (Some "7") None SearchAbsent
                = Index.Render v
                /\ Index.currentPage v = 7 /\ Index.totalPages v = 0
                /\ Index.notes v = [])
  /\ (forall s, search_text search = Ok s ->
      index_handler new_RegExp coll None page sort search
      = Index.Render
          {| Index.notes := []; Index.currentPage := 1; Index.totalPages := 0;
             Index.totalNotes := 0; Index.sort := sort_name sort; Index.search := s |}).
Proof.
  split; [|split; [|split]].
  - intros v H H0 _. apply index_handler_Render in H as (s & regex & _ & _ & _ & ->).
    destruct (listing_where_fields coll (matches_regex (userid (payload u)) regex)
                (page_number page) (sortOptions_of (sort_name sort)) (sort_name sort) s)
      as (E1 & E2 & E3 & E4 & _).
    rewrite E1 in H0. rewrite E2, E3, E4, H0. clear E1 E2 E3 E4.
    change (Math_ceil_div 0 limit) with 0.
    split; [reflexivity|]. split; [reflexivity|].
    destruct (filter (matches_regex (userid (payload u)) regex) coll) as [|n l].
    + unfold page_slice. cbn [Mongo.sort]. now rewrite skipn_nil.
    + cbn [List.length] in H0. lia.
  - intros s regex S R E Hp _.
    rewrite (index_handler_renders _ _ _ _ _ _ s regex S R Hp).
    unfold listing_where. rewrite E. cbn [List.length Z.of_nat Mongo.sort].
    change (Math_ceil_div 0 limit) with 0.
    assert (C : clamp 0 (page_number page) = page_number page).
    { destruct (clamp_cases 0 (page_number page)) as [(C1 & _)|(_ & C)]; [lia|exact C]. }
    rewrite C. unfold page_slice. now rewrite skipn_nil.
  - eexists. split; [reflexivity|]. repeat split.
  - intros s S. unfold index_handler. rewrite S. reflexivity.
Qed.

Lemma empty_listing_not_clamped_witness :
  search_text (SearchText "zzz") = Ok "zzz"
  /\ 1 <= page_number (Some "7")
  /\ exact (page_number (Some "7"))
  /\ index_handler fragment_only twelve_notes (Some bob) (Some "7") None (SearchText "zzz")
     = Index.Render
         {| Index.notes := []; Index.currentPage := 7; Index.totalPages := 0;
            Index.totalNotes := 0; Index.sort := "newest"; Index.search := "zzz" |}.
Proof.
  assert (Hp : 1 <= page_number (Some "7")) by (vm_compute; discriminate).
  assert (He : exact (page_number (Some "7"))) by reflexivity.
  split; [reflexivity|]. split; [exact Hp|]. split; [exact He|].
  exact (proj1 (proj2 (empty_listing_not_clamped fragment_only twelve_notes bob
                         (Some "7") None (SearchText "zzz")))
               "zzz" _ eq_refl eq_refl eq_refl Hp He).
Defined.

(** ** Login without a password (C7) *)

Section LoginFailures.

Context (L : Libraries).

(** C7. The failing logins do not all end alike: a login that sends no
    password ends in [Error logging in] when a user has the email, the
    comparison with the hash throwing, and in [Invalid email or password]
    when no user has it, so the two answers tell whether the email is
    registered. *)
Theorem login_failures_distinguishable
    e now (users : list User.t) (known unknown : string) (user : User.t) :
  Mongo.findOne_email known users = Some user ->
  Mongo.findOne_email unknown users = None ->
  post_login L e now users known None
  = ({| flash_type := "error"; flash_message := "Error logging in";
        location := "/login" |}, None)
  /\ post_login L e now users unknown None = InvalidCredentials L
  /\ post_login L e now users known None <> post_login L e now users unknown None.
Proof.
  intros Hk Hu.
  assert (A : post_login L e now users known None
              = ({| flash_type := "error"; flash_message := "Error logging in";
                    location := "/login" |}, None))
    by (unfold post_login; now rewrite Hk).
  assert (B : post_login L e now users unknown None = InvalidCredentials L)
    by (unfold post_login; now rewrite Hu).
  split; [exact A|]. split; [exact B|].
  rewrite A, B. unfold InvalidCredentials. intros H. discriminate.
Qed.

End LoginFailures.

Lemma login_failures_distinguishable_witness :
  Mongo.findOne_email "alice@example.org" sample_users
  = Some (User.mk 1%N "alice" "alice@example.org" "$wonderland" 30 [])
  /\ Mongo.findOne_email "carol@example.org" sample_users = None
  /\ post_login plain_libraries default_env 5 sample_users "alice@example.org" None
     <> post_login plain_libraries default_env 5 sample_users "carol@example.org" None.
Proof.
  split; [reflexivity|]. split; [reflexivity|].
  exact (proj2 (proj2 (login_failures_distinguishable plain_libraries default_env 5
                         sample_users "alice@example.org" "carol@example.org" _
                         eq_refl eq_refl))).
Defined.

(** ** The page parameter read back, and the pages one after the other *)

(** X1. [parseInt] reads the decimal text of a number back as that number,
    for the numbers that a JavaScript number holds exactly (below 2^53); so
    the page of a request whose [page] parameter is the decimal text of such
    a number from 1 on is that number. *)
Theorem page_text_read_back (n : nat) :
  exact (Z.of_nat n) ->
  JS.parseInt (Some (page_text n)) = JS.Num (Z.of_nat n)
  /\ ((1 <= n)%nat -> page_number (Some (page_text n)) = Z.of_nat n).
Proof.
  intros _. split; [apply parseInt_page_text|].
  intros Hn. exact (page_of_page_text n None None Hn).
Qed.

Lemma page_text_read_back_witness :
  exact (Z.of_nat 12) /\ (1 <= 12)%nat /\ page_number (Some (page_text 12)) = 12.
Proof.
  assert (He : exact (Z.of_nat 12)) by reflexivity.
  split; [exact He|]. split; [lia|].
  apply (proj2 (page_text_read_back 12 He)). lia.
Defined.

(** X4. Going through the pages from 1 to the last one shows every matched
    note once, in the order of the sort, when the creation times of the
    owner's notes are distinct: however the store scans the same notes for
    each of the requests, the pages, one after the other, are the sorted
    result, a rearrangement of the notes that the search keeps.  The search
    is absent or a text that the engine accepts, and the store is small
    enough for every page number to be held exactly. *)
Theorem pages_show_every_note_once
    (new_RegExp : string -> result matcher) (coll : list Note.t) (u : decoded)
    (sort : option string) (search : search_param) (s : string)
    (regex : option matcher) (scan : nat -> list Note.t) :
  search_text search = Ok s ->
  search_regex new_RegExp s = Ok regex ->
  (forall p, Permutation coll (scan p)) ->
  NoDup (map Note.createdAt (filter (owned_by (userid (payload u))) coll)) ->
  exact (Z.of_nat (List.length coll)) ->
  let matched := filter (matches_regex (userid (payload u)) regex) coll in
  let pages := Z.to_nat (Math_ceil_div (Z.of_nat (List.length matched)) limit) in
  let page p :=
    shown (Some (index_handler new_RegExp (scan p) (Some u)
                   (Some (page_text p)) sort search)) in
  List.concat (map page (seq 1 pages))
  = Mongo.sort (sortOptions_of (sort_name sort)) matched
  /\ Permutation (List.concat (map page (seq 1 pages))) matched.
Proof.
  intros S R Hscan Hnd _ matched pages page.
  set (keep := matches_regex (userid (payload u)) regex) in *.
  set (all := Mongo.sort (sortOptions_of (sort_name sort)) matched).
  pose proof (pages_where_nonneg keep coll) as Hn. fold matched in Hn.
  assert (E : List.concat (map page (seq 1 pages)) = all).
  { rewrite (map_ext_in page (fun p => page_slice (Z.of_nat p) all)).
    - rewrite concat_page_slices. apply firstn_all2.
      unfold all. rewrite sort_length.
      pose proof (ceil_div_spec (Z.of_nat (List.length matched))) as Sp.
      unfold pages, limit in *. lia.
    - intros p Hp. apply in_seq in Hp. unfold page.
      assert (P : page_number (Some (page_text p)) = Z.of_nat p)
        by (apply (page_of_page_text p None None); lia).
      rewrite (index_handler_renders _ _ _ _ _ _ s regex S R) by (rewrite P; lia).
      unfold shown.
      destruct (listing_where_fields (scan p) keep (page_number (Some (page_text p)))
                  (sortOptions_of (sort_name sort)) (sort_name sort) s)
        as (_ & _ & _ & E4 & _).
      fold keep. rewrite E4, P. clear E4.
      rewrite <- (sort_filter_where_Permutation _ (userid (payload u)) keep coll (scan p)
                    (matches_regex_owned _ regex) (Hscan p) Hnd).
      rewrite <- (Permutation_length (filter_Permutation keep _ _ (Hscan p))).
      fold matched. fold all.
      destruct (clamp_cases (Math_ceil_div (Z.of_nat (List.length matched)) limit)
                  (Z.of_nat p)) as [(C1 & C2 & C3)|(C1 & C3)];
        [unfold pages in Hp; lia|].
      now rewrite C3. }
  split; [exact E|]. rewrite E. apply sort_Permutation.
Qed.

Lemma pages_show_every_note_once_witness :
  let scan (p : nat) := if (p =? 2)%nat then rev twelve_notes else twelve_notes in
  let page p :=
    shown (Some (index_handler fragment_only (scan p) (Some alice)
                   (Some (page_text p)) (Some "oldest") SearchAbsent)) in
  (forall p, Permutation twelve_notes (scan p))
  /\ NoDup (map Note.createdAt (filter (owned_by 1%N) twelve_notes))
  /\ exact (Z.of_nat (List.length twelve_notes))
  /\ Permutation (page 1%nat ++ page 2%nat ++ page 3%nat)%list
                 (filter (owned_by 1%N) twelve_notes).
Proof.
  cbv zeta.
  assert (Hscan : forall p, Permutation twelve_notes
                              (if (p =? 2)%nat then rev twelve_notes else twelve_notes)).
  { intros p. destruct (p =? 2)%nat; [apply Permutation_rev | reflexivity]. }
  assert (Hnd : NoDup (map Note.createdAt (filter (owned_by 1%N) twelve_notes))).
  { apply (NoDup_map_inv Z.to_nat).
    change (NoDup (seq 1 12)). apply seq_NoDup. }
  assert (He : exact (Z.of_nat (List.length twelve_notes))) by reflexivity.
  split; [exact Hscan|]. split; [exact Hnd|]. split; [exact He|].
  pose proof (proj2 (pages_show_every_note_once fragment_only twelve_notes alice
                       (Some "oldest") SearchAbsent "" None _ eq_refl eq_refl
                       Hscan Hnd He)) as H.
  cbv zeta in H.
  change (Z.to_nat (Math_ceil_div (Z.of_nat (List.length _)) limit)) with 3%nat in H.
  cbn [seq map List.concat] in H. rewrite app_nil_r in H.
  assert (F : filter (matches_regex (userid (payload alice)) None) twelve_notes
              = filter (owned_by 1%N) twelve_notes) by reflexivity.
  rewrite F in H. exact H.
Defined.
